(** * Selman: an interactive selection manager for text terminals

    A shallow embedding of [selman/ansi_control.py], [selman/printer.py],
    [selman/core.py] and [selman/flow.py], followed by the properties of the
    focus / selection state machine and of the session driver.

    Conventions of the embedding.
    - A Python [int] is a [Z]; a [str] is a [string] holding the UTF-8 bytes
      that reach the terminal; a [bytes] value is a [list byte].
    - A [dict] keyed by labels is a [gmap string bool]; a [frozenset] of item
      indices is a [gset Z] and the [set] of them a [gset (gset Z)].  Python
      leaves the iteration order of a set to the interpreter; the embedding
      takes that order as data, the [set_iteration] of the object.
    - Methods run in a state-and-exception monad [M]: the state holds the
      attributes of the [Selman] object that its methods assign, together
      with the two standard streams.  An exception leaves the state as it was
      when it was raised.
    - [sys.stdout] is the list of the strings written so far, one entry per
      [write] call; [flush] does not change that list. *)

From Stdlib Require Import ZArith Ascii String.
From Stdlib.Strings Require Import Byte.
From stdpp Require Import gmap strings list fin_maps sorting pretty.

Local Open Scope string_scope.
Local Open Scope Z_scope.

(** ** Python runtime: constructor arguments, object state, exceptions *)

(** The order in which the interpreter iterates the sets the program
    iterates.  Python fixes the members of a set and nothing of the order of
    [for s in group] or of [iter(s - {i})]; for one object the order is the
    same at every iteration.  [iter_sets group] lists the members of the
    [set] [group] in the order [for s in group] visits them, and
    [iter_difference s i] those of the new set [s - {i}] in the order
    [iter(s - {i})] yields them; each lists the members, once each. *)
Record set_iteration := SetIteration {
  iter_sets : gset (gset Z) -> list (gset Z);
  iter_difference : gset Z -> Z -> list Z;
  iter_sets_members : forall group, iter_sets group ≡ₚ elements group;
  iter_difference_members :
    forall s i, iter_difference s i ≡ₚ elements (s ∖ {[i]})
}.

(** The arguments of [Selman.__init__]; no method assigns them again.
    [set_order] is no argument: it is the order in which the interpreter
    iterates the object passed as [mutex_group] and the sets made from its
    members. *)
Record config := Config {
  selection : list string;
  col_offset : Z;
  allow_multiple_selection : bool;
  mutex_group : option (gset (gset Z));
  footer_comments : option (list string);
  wipe_comments_after_select : bool;
  set_order : set_iteration
}.

(** The attributes the methods assign, and the standard streams. *)
Record state := State {
  current_index : Z;
  sel_board : gmap string bool;
  banned_board : gmap string bool;
  _terminate : bool;
  stdout : list string;
  stdin : list byte
}.

Definition with_current_index (v : Z) (st : state) : state :=
  State v (sel_board st) (banned_board st) (_terminate st) (stdout st) (stdin st).
Definition with_sel_board (v : gmap string bool) (st : state) : state :=
  State (current_index st) v (banned_board st) (_terminate st) (stdout st) (stdin st).
Definition with_banned_board (v : gmap string bool) (st : state) : state :=
  State (current_index st) (sel_board st) v (_terminate st) (stdout st) (stdin st).
Definition with_terminate (v : bool) (st : state) : state :=
  State (current_index st) (sel_board st) (banned_board st) v (stdout st) (stdin st).
Definition with_stdout (v : list string) (st : state) : state :=
  State (current_index st) (sel_board st) (banned_board st) (_terminate st) v (stdin st).
Definition with_stdin (v : list byte) (st : state) : state :=
  State (current_index st) (sel_board st) (banned_board st) (_terminate st) (stdout st) v.

#[global] Instance byte_eq_decision : EqDecision byte := Byte.byte_eq_dec.

Inductive exn := IndexError | KeyError | StopIteration.

(** The third result stands for a call that never returns: the session loop
    waiting for input that does not come. *)
Inductive res (A : Type) :=
| Ok (a : A)
| Raise (e : exn)
| Diverge.
Arguments Ok {A} a.
Arguments Raise {A} e.
Arguments Diverge {A}.

Definition SM (S A : Type) : Type := S -> res A * S.
Abbreviation M := (SM state).

Definition ret {S A} (a : A) : SM S A := fun st => (Ok a, st).
Definition raise {S A} (e : exn) : SM S A := fun st => (Raise e, st).
Definition diverge {S A} : SM S A := fun st => (Diverge, st).
Definition bind {S A B} (m : SM S A) (k : A -> SM S B) : SM S B :=
  fun st =>
    match m st with
    | (Ok a, st') => k a st'
    | (Raise e, st') => (Raise e, st')
    | (Diverge, st') => (Diverge, st')
    end.

(** [try: body finally: fin].  The [finally] suite runs when the body
    returns and when it raises; an exception raised by the suite replaces the
    pending one. *)
Definition try_finally {S A} (body : SM S A) (fin : SM S unit) : SM S A :=
  fun st =>
    match body st with
    | (Diverge, st') => (Diverge, st')
    | (r, st') =>
        match fin st' with
        | (Ok _, st'') => (r, st'')
        | (Raise e, st'') => (Raise e, st'')
        | (Diverge, st'') => (Diverge, st'')
        end
    end.

Declare Scope py_scope.
Delimit Scope py_scope with py.
Notation "'let*' x ':=' m 'in' k" := (bind m (fun x => k))
  (at level 10, x name, m at level 100, k at level 200) : py_scope.
Notation "m ';;' k" := (bind m (fun _ => k))
  (at level 100, k at level 200, right associativity) : py_scope.
Local Open Scope py_scope.

Definition get {S A} (f : S -> A) : SM S A := fun st => (Ok (f st), st).
Definition modify {S} (f : S -> S) : SM S unit := fun st => (Ok tt, f st).

(** [for x in l: body(x)] *)
Fixpoint for_each {S A} (l : list A) (body : A -> SM S unit) : SM S unit :=
  match l with
  | [] => ret tt
  | x :: l' => body x ;; for_each l' body
  end.

(** [seq[i]] for a list and an [int]: negative indices count from the end,
    anything outside [-len, len) raises [IndexError]. *)
Definition py_index {A} (l : list A) (i : Z) : option A :=
  if (0 <=? i) && (i <? Z.of_nat (length l)) then l !! Z.to_nat i
  else if (- Z.of_nat (length l) <=? i) && (i <? 0)
       then l !! Z.to_nat (Z.of_nat (length l) + i)
       else None.

Definition getitem {S A} (l : list A) (i : Z) : SM S A :=
  match py_index l i with
  | Some a => ret a
  | None => raise IndexError
  end.

(** [d[k]] for a [dict]: a missing key raises [KeyError]. *)
Definition dict_get {S} (d : gmap string bool) (k : string) : SM S bool :=
  match d !! k with
  | Some b => ret b
  | None => raise KeyError
  end.

(** [sys.stdout.write(s)], [print()] and [sys.stdout.flush()]. *)
Definition write (s : string) : M unit :=
  modify (fun st => with_stdout (stdout st ++ [s])%list st).

Definition LF : string := String "010"%char EmptyString.
Definition print : M unit := write LF.
Definition flush : M unit := ret tt.

(** [sys.stdin.buffer.read(n)]: at most [n] bytes, fewer at end of input. *)
Definition read (n : nat) : M (list byte) :=
  fun st => (Ok (take n (stdin st)), with_stdin (drop n (stdin st)) st).

(** ** ansi_control.py *)

Module ansi_control.

Definition ESC : string := String "027"%char EmptyString.

Definition ANSI_KEY_UP : list byte := [x1b; "["%byte; "A"%byte].
Definition ANSI_KEY_DOWN : list byte := [x1b; "["%byte; "B"%byte].
Definition ANSI_KEY_RIGHT : list byte := [x1b; "["%byte; "C"%byte].
Definition ANSI_KEY_LEFT : list byte := [x1b; "["%byte; "D"%byte].
Definition ANSI_KEY_EOX : list byte := [x03].

Definition cursor_up (dist : Z) : M unit :=
  if dist =? 0 then ret tt
  else write (ESC +:+ "[" +:+ pretty dist +:+ "A").

Definition cursor_down (dist : Z) : M unit :=
  if dist =? 0 then ret tt
  else write (ESC +:+ "[" +:+ pretty dist +:+ "B").

Definition cursor_right (dist : Z) : M unit :=
  if dist =? 0 then ret tt
  else write (ESC +:+ "[" +:+ pretty dist +:+ "C").

Definition cursor_left (dist : Z) : M unit :=
  if dist =? 0 then ret tt
  else write (ESC +:+ "[" +:+ pretty dist +:+ "D").

(** Moves the cursor and returns the callable that moves it back. *)
Definition move_cursor_by_relative_pos_row (relative_pos_row : Z)
  : M (M unit) :=
  if relative_pos_row =? 0 then ret (ret tt)
  else
    let dist := Z.abs relative_pos_row in
    if 0 <? relative_pos_row
    then (cursor_down dist ;; ret (cursor_up dist))
    else (cursor_up dist ;; ret (cursor_down dist)).

Definition set_cursor_visibility (is_visible : bool) : M unit :=
  write (if is_visible then ESC +:+ "[?25h" else ESC +:+ "[?25l").

Definition set_col_offset (offset : Z) : M unit :=
  let offset := if offset <? 0 then 0 else offset in
  write (ESC +:+ "[" +:+ pretty offset +:+ "G").

Definition erase_line (col_offset : Z) : M unit :=
  write (ESC +:+ "[2K") ;;
  set_col_offset col_offset.

Definition enable_autowrap (enabled : bool) : M unit :=
  write (if enabled then ESC +:+ "[?7h" else ESC +:+ "[?7l").

Definition is_ansi_key (target : list byte) : bool :=
  bool_decide (target = [x1b]).

End ansi_control.

(** ** printer.py *)

Module printer.

Definition FG_muted : string := "38;5;245".
Definition FG_accent : string := "38;5;117".
Definition FG_selected : string := "38;5;112".

Inductive TextEffect :=
| UNFOCUSED
| FOCUSED
| SELECTED
| SELECTED_FOCUSED
| BANNED
| BANNED_FOCUSED.

(** U+25CB WHITE CIRCLE and U+25CF BLACK CIRCLE, in UTF-8. *)
Definition WHITE_CIRCLE : string :=
  String "226"%char (String "151"%char (String "139"%char EmptyString)).
Definition BLACK_CIRCLE : string :=
  String "226"%char (String "151"%char (String "143"%char EmptyString)).

Definition _restore_cursor_pos_col (col_offset : Z) : M unit :=
  ansi_control.set_col_offset col_offset.

Definition write_line (text : string) (color_code : option string)
    (restore_style : bool) : M unit :=
  match color_code with
  | None => write text
  | Some color_code =>
      if restore_style
      then write (ansi_control.ESC +:+ "[" +:+ color_code +:+ "m" +:+ text
                  +:+ ansi_control.ESC +:+ "[0m")
      else write (ansi_control.ESC +:+ "[" +:+ color_code +:+ "m" +:+ text)
  end.

Definition _render_at_row (relative_pos : option Z) (col_offset : Z)
    (draw : M unit) : M unit :=
  match relative_pos with
  | Some relative_pos =>
      let* restore_pos :=
        ansi_control.move_cursor_by_relative_pos_row relative_pos in
      try_finally draw (restore_pos ;; _restore_cursor_pos_col col_offset)
  | None =>
      draw ;;
      _restore_cursor_pos_col col_offset
  end.

Definition print_unfocused (text : string) (col_offset : Z)
    (relative_pos : option Z) : M unit :=
  let draw := write_line (WHITE_CIRCLE +:+ " " +:+ text) (Some FG_muted) true in
  _render_at_row relative_pos col_offset draw.

Definition print_focused (text : string) (col_offset : Z)
    (relative_pos : option Z) : M unit :=
  let draw := write_line (BLACK_CIRCLE +:+ " " +:+ text) (Some FG_accent) true in
  _render_at_row relative_pos col_offset draw.

Definition print_selected (text : string) (col_offset : Z)
    (relative_pos : option Z) : M unit :=
  let draw := write_line (BLACK_CIRCLE +:+ " " +:+ text) (Some FG_selected) true in
  _render_at_row relative_pos col_offset draw.

Definition print_selected_focused (text : string) (col_offset : Z)
    (relative_pos : option Z) : M unit :=
  let draw :=
    write_line (BLACK_CIRCLE +:+ " ") (Some FG_accent) true ;;
    write_line text (Some FG_selected) true in
  _render_at_row relative_pos col_offset draw.

Definition print_banned_focused (text : string) (col_offset : Z)
    (relative_pos : option Z) : M unit :=
  let draw :=
    write_line (ansi_control.ESC +:+ "[9m" +:+ BLACK_CIRCLE +:+ " ")
               (Some FG_accent) false ;;
    write_line (text +:+ ansi_control.ESC +:+ "[0m") (Some FG_accent) false in
  _render_at_row relative_pos col_offset draw.

Definition print_banned (text : string) (col_offset : Z)
    (relative_pos : option Z) : M unit :=
  let draw :=
    write_line (ansi_control.ESC +:+ "[9m" +:+ WHITE_CIRCLE +:+ " " +:+ text
                +:+ ansi_control.ESC +:+ "[29m") (Some FG_muted) true in
  _render_at_row relative_pos col_offset draw.

Definition print_effect (effect : TextEffect)
  : string -> Z -> option Z -> M unit :=
  match effect with
  | UNFOCUSED => print_unfocused
  | FOCUSED => print_focused
  | SELECTED => print_selected
  | SELECTED_FOCUSED => print_selected_focused
  | BANNED => print_banned
  | BANNED_FOCUSED => print_banned_focused
  end.

Definition print_text_effect (text : string) (effect : TextEffect)
    (col_offset : Z) (relative_pos : option Z) : M unit :=
  print_effect effect text col_offset relative_pos.

End printer.

(** ** core.py: the Selman object *)

Module core.
Import printer.

(** The callables stored in [self.key_events]. *)
Inductive action :=
| ChangeFocus (relative_move : Z)
| SelectOption
| Proceed
| Terminate.

(** [self.key_events.get(k)] *)
Definition key_events (k : list byte) : option action :=
  if bool_decide (k = ["j"%byte]) then Some (ChangeFocus 1)
  else if bool_decide (k = ansi_control.ANSI_KEY_DOWN) then Some (ChangeFocus 1)
  else if bool_decide (k = ["k"%byte]) then Some (ChangeFocus (-1))
  else if bool_decide (k = ansi_control.ANSI_KEY_UP) then Some (ChangeFocus (-1))
  else if bool_decide (k = [x0d]) then Some SelectOption
  else if bool_decide (k = [x0a]) then Some SelectOption
  else if bool_decide (k = ["n"%byte]) then Some Proceed
  else if bool_decide (k = ["q"%byte]) then Some Terminate
  else if bool_decide (k = ansi_control.ANSI_KEY_EOX) then Some Terminate
  else None.

(** The state [__init__] leaves, for a process whose standard input holds
    [input] and whose standard output has received nothing yet. *)
Definition init (self : config) (input : list byte) : state :=
  {| current_index := 0;
     sel_board := list_to_map ((fun item => (item, false)) <$> selection self);
     banned_board := list_to_map ((fun item => (item, false)) <$> selection self);
     _terminate := false;
     stdout := [];
     stdin := input |}.

Section Methods.
Context (self : config).

Definition len_selection : Z := Z.of_nat (length (selection self)).

Definition sel_board_get (k : string) : M bool :=
  let* d := get sel_board in dict_get d k.
Definition banned_board_get (k : string) : M bool :=
  let* d := get banned_board in dict_get d k.
Definition sel_board_set (k : string) (v : bool) : M unit :=
  modify (fun st => with_sel_board (<[k := v]> (sel_board st)) st).
Definition banned_board_set (k : string) (v : bool) : M unit :=
  modify (fun st => with_banned_board (<[k := v]> (banned_board st)) st).

Definition terminate : M unit :=
  modify (with_terminate true).

Definition print_comments : M unit :=
  match footer_comments self with
  | None => ret tt
  | Some comments =>
      for_each comments (fun c =>
        ansi_control.set_col_offset (col_offset self) ;;
        write_line c None true ;;
        print)
  end.

Definition wipe_comments : M unit :=
  match footer_comments self with
  | None => ret tt
  | Some _ =>
      let* cur := get current_index in
      let dist := len_selection - cur in
      try_finally
        (ansi_control.cursor_down dist ;;
         ansi_control.erase_line (col_offset self) ;;
         flush)
        (ansi_control.cursor_up dist ;;
         flush) ;;
      flush
  end.

Definition get_relative_pos_by_index (index : Z) : M Z :=
  let* cur := get current_index in ret (index - cur).

Definition is_index_valid (target_index : Z) : bool :=
  (0 <=? target_index) && (target_index <? len_selection).

Definition is_index_selected (target_index : Z) : M bool :=
  let* label := getitem (selection self) target_index in
  sel_board_get label.

Definition is_index_banned (target_index : Z) : M bool :=
  let* label := getitem (selection self) target_index in
  banned_board_get label.

(** [self.selection[self.current_index]] *)
Definition current_label : M string :=
  let* cur := get current_index in
  getitem (selection self) cur.

Definition render_text_effect (effect : TextEffect)
    (target_index : option Z) : M unit :=
  ansi_control.set_col_offset (col_offset self) ;;
  match target_index with
  | Some target_index =>
      if is_index_valid target_index then
        let* relative_pos := get_relative_pos_by_index target_index in
        let* restore :=
          ansi_control.move_cursor_by_relative_pos_row relative_pos in
        try_finally
          (let* text := getitem (selection self) target_index in
           print_text_effect text effect (col_offset self) None)
          restore
      else
        let* text := current_label in
        print_text_effect text effect (col_offset self) None
  | None =>
      let* text := current_label in
      print_text_effect text effect (col_offset self) None
  end.

Definition initialize_focus : M unit :=
  let selection_count := len_selection in
  let result_offset :=
    match footer_comments self with
    | Some comments => selection_count + Z.of_nat (length comments)
    | None => selection_count
    end in
  ansi_control.set_col_offset (col_offset self) ;;
  ansi_control.cursor_up result_offset ;;
  render_text_effect FOCUSED None.

Definition set_to_focused (target_index : Z) : M unit :=
  let* selected := is_index_selected target_index in
  if selected then render_text_effect SELECTED_FOCUSED (Some target_index)
  else
    let* banned := is_index_banned target_index in
    if banned then render_text_effect BANNED_FOCUSED (Some target_index)
    else render_text_effect FOCUSED None.

Definition set_to_unfocused (target_index : Z) : M unit :=
  let* selected := is_index_selected target_index in
  if selected then render_text_effect SELECTED (Some target_index)
  else
    let* banned := is_index_banned target_index in
    if banned then render_text_effect BANNED (Some target_index)
    else render_text_effect UNFOCUSED (Some target_index).

Definition change_focus (relative_move : Z) : M unit :=
  let* cur := get current_index in
  let target := cur + relative_move in
  if negb ((0 <=? target) && (target <? len_selection)) then ret tt
  else
    set_to_unfocused cur ;;
    modify (with_current_index target) ;;
    ansi_control.move_cursor_by_relative_pos_row relative_move ;;
    let* cur := get current_index in
    set_to_focused cur.

Definition proceed : M unit :=
  let* label := current_label in
  let* selected := sel_board_get label in
  (if selected then render_text_effect SELECTED None
   else render_text_effect UNFOCUSED None) ;;
  terminate.

(** The body of [for s in self.mutex_group], over the sets still to
    visit; [next(iter(...))] of an empty set raises [StopIteration]. *)
Fixpoint mutex_scan (target_index : Z) (group : list (gset Z))
  : M (option Z) :=
  match group with
  | [] => ret None
  | s :: group' =>
      if bool_decide (target_index ∈ s) then
        match iter_difference (set_order self) s target_index with
        | opposite :: _ => ret (Some opposite)
        | [] => raise StopIteration
        end
      else mutex_scan target_index group'
  end.

Definition get_opposite_mutex_index (target_index : Z) : M (option Z) :=
  match mutex_group self with
  | None => ret None
  | Some group =>
      mutex_scan target_index (iter_sets (set_order self) group)
  end.

Definition ban_selection_by_index (target_index : Z) (do_render : bool)
  : M unit :=
  (if do_render then render_text_effect BANNED (Some target_index)
   else ret tt) ;;
  let* label := getitem (selection self) target_index in
  sel_board_set label false ;;
  let* label := getitem (selection self) target_index in
  banned_board_set label true.

Definition unban_selection_by_index (target_index : Z) (do_render : bool)
  : M unit :=
  (if do_render then render_text_effect UNFOCUSED (Some target_index)
   else ret tt) ;;
  let* label := getitem (selection self) target_index in
  banned_board_set label false.

Definition select_option : M (option string) :=
  if negb (allow_multiple_selection self) then
    let* label := current_label in
    sel_board_set label true ;;
    render_text_effect SELECTED None ;;
    terminate ;;
    let* label := current_label in
    ret (Some label)
  else
    let* label := current_label in
    let* current := sel_board_get label in
    if current then
      (* when toggle to unselect *)
      let* label := current_label in
      sel_board_set label false ;;
      render_text_effect FOCUSED None ;;
      let* cur := get current_index in
      let* opposite_index := get_opposite_mutex_index cur in
      match opposite_index with
      | Some opposite_index =>
          let* banned := is_index_banned opposite_index in
          if banned
          then (unban_selection_by_index opposite_index true ;; ret None)
          else ret None
      | None => ret None
      end
    else
      (* when toggle to select *)
      let* label := current_label in
      sel_board_set label true ;;
      let* cur := get current_index in
      unban_selection_by_index cur false ;;
      render_text_effect SELECTED_FOCUSED None ;;
      let* cur := get current_index in
      let* opposite_index := get_opposite_mutex_index cur in
      match opposite_index with
      | Some opposite_index =>
          ban_selection_by_index opposite_index true ;; ret None
      | None => ret None
      end.

(** Calling an entry of [self.key_events]. *)
Definition call (a : action) : M (option string) :=
  match a with
  | ChangeFocus relative_move => change_focus relative_move ;; ret None
  | SelectOption => select_option
  | Proceed => proceed ;; ret None
  | Terminate => terminate ;; ret None
  end.

Definition manage_key_input (k : list byte) : M (option string) :=
  let* k :=
    if ansi_control.is_ansi_key k then
      let* seq := read 2 in ret (k ++ seq)%list
    else ret k in
  match key_events k with
  | Some a => call a
  | None => ret None
  end.

End Methods.

(** *** The session driver

    [termios.tcgetattr] returns the attributes of the terminal and
    [termios.tcsetattr] installs the ones it is given; [tty.setraw] and
    [tty.setcbreak] change them in a way this development does not look
    into.  The calls of [tcsetattr] are recorded in order. *)
Section Session.
Variable termios_attr : Type.
Variables tty_setraw tty_setcbreak : termios_attr -> termios_attr.
Context (self : config).

Record terminal := Terminal {
  tty_attr : termios_attr;
  tcsetattr_calls : list termios_attr
}.

Definition process : Type := state * terminal.

Definition lift {A} (m : M A) : SM process A :=
  fun p => match m (fst p) with (r, st') => (r, (st', snd p)) end.

Definition tcgetattr : SM process termios_attr :=
  get (fun p => tty_attr (snd p)).
Definition tcsetattr (attr : termios_attr) : SM process unit :=
  modify (fun p =>
    (fst p, Terminal attr (tcsetattr_calls (snd p) ++ [attr]))).
Definition setraw : SM process unit :=
  modify (fun p =>
    (fst p, Terminal (tty_setraw (tty_attr (snd p))) (tcsetattr_calls (snd p)))).
Definition setcbreak : SM process unit :=
  modify (fun p =>
    (fst p, Terminal (tty_setcbreak (tty_attr (snd p))) (tcsetattr_calls (snd p)))).

(** [while True: ...], for at most [fuel] iterations. *)
Fixpoint mainloop (fuel : nat) : SM process (option string) :=
  match fuel with
  | O => diverge
  | S fuel' =>
      let* key_bytes := lift (read 1) in
      let* last_selection := lift (manage_key_input self key_bytes) in
      lift flush ;;
      let* stop := lift (get _terminate) in
      if stop then ret last_selection
      else mainloop fuel'
  end.

(** Every iteration that does not end the loop consumes at least one byte
    of input, and an iteration at the end of the input changes nothing:
    one more iteration than there are bytes left decides the loop. *)
Definition enough_fuel (p : process) : nat := S (length (stdin (fst p))).

Definition selman_mainstream : SM process (option string) :=
  let* old := tcgetattr in
  let* last_selection :=
    try_finally
      (setraw ;;
       setcbreak ;;
       lift (ansi_control.set_cursor_visibility false) ;;
       lift (ansi_control.enable_autowrap false) ;;
       (if allow_multiple_selection self
        then lift (ansi_control.set_col_offset (col_offset self))
        else ret tt) ;;
       lift (print_comments self) ;;
       lift (initialize_focus self) ;;
       lift flush ;;
       let* fuel := get enough_fuel in
       mainloop fuel)
      ((if wipe_comments_after_select self
        then lift (wipe_comments self)
        else ret tt) ;;
       let* cur := lift (get current_index) in
       let initial_cursor_relative_pos := len_selection self - cur in
       lift (ansi_control.cursor_down initial_cursor_relative_pos) ;;
       tcsetattr old ;;
       lift (ansi_control.set_cursor_visibility true) ;;
       lift (ansi_control.enable_autowrap true) ;;
       lift print) in
  if allow_multiple_selection self then ret last_selection
  else ret None.

Definition run : SM process (option string) :=
  lift (for_each (seqZ 0 (len_selection self)) (fun i =>
    ansi_control.set_col_offset (col_offset self) ;;
    let* text := getitem (selection self) i in
    print_unfocused text (col_offset self) None ;;
    print)) ;;
  selman_mainstream.

End Session.

End core.

(** ** flow.py

    [flow.py] takes the list of options and their mutex group from a module
    [assets] that is not among the sources: they are parameters here, with
    the order in which the interpreter iterates that group.  It
    builds one [Selman] after the other; the first object is not used any
    more once the second is built, so that building an object is modelled
    as giving the state the attributes [__init__] sets, the standard
    streams staying those of the process. *)

Module flow.
Import core.

Section Flow.
Variable termios_attr : Type.
Variables tty_setraw tty_setcbreak : termios_attr -> termios_attr.
Variable install_options_list : list string.
Variable install_options_mutex : option (gset (gset Z)).
Variable install_options_order : set_iteration.

(** [print(s)]: the text, then the line end. *)
Definition print_line (s : string) : M unit :=
  write s ;;
  write LF.

Definition setcursor (row col : Z) : M unit :=
  write (ansi_control.ESC +:+ "[" +:+ pretty row +:+ ";" +:+ pretty col +:+ "H") ;;
  flush.

(** [Selman(...)] *)
Definition construct (self : config) : SM (process termios_attr) unit :=
  modify (fun p =>
    (with_stdout (stdout (fst p)) (init self (stdin (fst p))), snd p)).

Definition mainflow : SM (process termios_attr) unit :=
  let footer_comments := ["press n to proceed..."] in
  lift termios_attr (print_line "    Options:") ;;
  let sel :=
    Config install_options_list 5 true install_options_mutex
           (Some footer_comments) true install_options_order in
  construct sel ;;
  run termios_attr tty_setraw tty_setcbreak sel ;;
  let* board := lift termios_attr (get sel_board) in
  let* install_dotfile :=
    lift termios_attr (dict_get board "Install Dotfile") in
  if install_dotfile then
    lift termios_attr (print_line "    Dotfiles to install:") ;;
    let dot_sel :=
      Config install_options_list 5 true install_options_mutex None true
             install_options_order in
    construct dot_sel ;;
    run termios_attr tty_setraw tty_setcbreak dot_sel ;;
    ret tt
  else ret tt.

End Flow.

End flow.

(** * Vocabulary of the specification *)

Import ansi_control printer core.

(** ** Frames *)

(** [keeps f m]: running [m] does not change the observation [f] of the
    state, however [m] ends. *)
Definition keeps {S A B} (f : S -> B) (m : SM S A) : Prop :=
  forall st, f (m st).2 = f st.

(** [returns m]: [m] neither raises nor diverges. *)
Definition returns {S A} (m : SM S A) : Prop :=
  forall st, exists a, (m st).1 = Ok a.

(** [preserves P m]: a state satisfying [P] still does after [m], however
    [m] ends. *)
Definition preserves {S A} (P : S -> Prop) (m : SM S A) : Prop :=
  forall st, P st -> P (m st).2.

(** [yields_none m]: when [m] returns, it returns [None]. *)
Definition yields_none {S A} (m : SM S (option A)) : Prop :=
  forall st v, (m st).1 = Ok v -> v = None.

(** Everything in the state but the standard output. *)
Definition logic (st : state)
  : Z * gmap string bool * gmap string bool * bool * list byte :=
  (current_index st, sel_board st, banned_board st, _terminate st, stdin st).

(** ** Items, labels and flags *)

(** The mutex partner [get_opposite_mutex_index] computes, with the order
    in which the interpreter iterates the group of [self]: it reads nothing
    of the state, so it is taken at the state [__init__] leaves. *)
Definition opposite (self : config) (i : Z) : res (option Z) :=
  (get_opposite_mutex_index self i (init self [])).1.

(** Both boards have an entry for every label, as [__init__] makes them. *)
Definition boards_ok (self : config) (st : state) : Prop :=
  forall l : string, l ∈ selection self ->
    is_Some (sel_board st !! l) /\ is_Some (banned_board st !! l).

(** The flags of the item at an index, read the way the source reads them. *)
Definition selected (self : config) (st : state) (i : Z) : Prop :=
  (is_index_selected self i st).1 = Ok true.
Definition banned (self : config) (st : state) (i : Z) : Prop :=
  (is_index_banned self i st).1 = Ok true.

(** The data model's mutex groups: no index lies in two of the sets, and
    the indices are those of items. *)
Definition wf_mutex_group (self : config) : Prop :=
  forall g : gset (gset Z), mutex_group self = Some g ->
    (forall (s1 s2 : gset Z) (i : Z),
       s1 ∈ g -> s2 ∈ g -> i ∈ s1 -> i ∈ s2 -> s1 = s2) /\
    (forall (s : gset Z) (i : Z),
       s ∈ g -> i ∈ s -> 0 <= i < len_selection self).

(** [{a, b}] is one of the configured pairs. *)
Definition mutex_pair (self : config) (a b : Z) : Prop :=
  exists g : gset (gset Z),
    mutex_group self = Some g /\ ({[a; b]} : gset Z) ∈ g /\ a <> b.

(** What [select_option] does to the flags and the termination flag, with
    the drawing left out; [select_option_effect_correct] proves that
    [select_option] does exactly this and writes to the terminal. *)
Definition select_option_effect (self : config) (st : state)
  : res (option string) * state :=
  match py_index (selection self) (current_index st) with
  | None => (Raise IndexError, st)
  | Some l =>
      if negb (allow_multiple_selection self) then
        (Ok (Some l),
         with_terminate true (with_sel_board (<[l := true]> (sel_board st)) st))
      else
        match sel_board st !! l with
        | None => (Raise KeyError, st)
        | Some true =>
            let st1 := with_sel_board (<[l := false]> (sel_board st)) st in
            match opposite self (current_index st) with
            | Ok None => (Ok None, st1)
            | Ok (Some p) =>
                match py_index (selection self) p with
                | None => (Raise IndexError, st1)
                | Some lp =>
                    match banned_board st !! lp with
                    | None => (Raise KeyError, st1)
                    | Some true =>
                        (Ok None,
                         with_banned_board
                           (<[lp := false]> (banned_board st)) st1)
                    | Some false => (Ok None, st1)
                    end
                end
            | Raise e => (Raise e, st1)
            | Diverge => (Diverge, st1)
            end
        | Some false =>
            let st1 :=
              with_banned_board (<[l := false]> (banned_board st))
                (with_sel_board (<[l := true]> (sel_board st)) st) in
            match opposite self (current_index st) with
            | Ok None => (Ok None, st1)
            | Ok (Some p) =>
                match py_index (selection self) p with
                | None => (Raise IndexError, st1)
                | Some lp =>
                    (Ok None,
                     with_banned_board (<[lp := true]> (banned_board st1))
                       (with_sel_board (<[lp := false]> (sel_board st1)) st1))
                end
            | Raise e => (Raise e, st1)
            | Diverge => (Diverge, st1)
            end
        end
  end.

(** No item is both selected and banned, read label by label; in
    single-selection mode no label is banned at all. *)
Definition flags_exclusive (self : config) (st : state) : Prop :=
  (forall l : string,
     ~ (sel_board st !! l = Some true /\ banned_board st !! l = Some true)) /\
  (allow_multiple_selection self = false ->
   forall l : string, banned_board st !! l <> Some true).

(** The focus is where [__init__] and [change_focus] put it. *)
Definition focus_ok (self : config) (st : state) : Prop :=
  0 <= current_index st /\
  (current_index st < len_selection self \/ current_index st = 0).

(** The partner the theorems on toggling allow: [get_opposite_mutex_index]
    returns none, or an item under another label than [l]. *)
Definition partner_apart (self : config) (i : Z) (l : string) : Prop :=
  match opposite self i with
  | Ok None => True
  | Ok (Some p) =>
      exists lp, py_index (selection self) p = Some lp /\ lp <> l
  | Raise _ | Diverge => False
  end.

(** No configured pair has both its items selected. *)
Definition pairs_exclusive (self : config) (st : state) : Prop :=
  forall (a b : Z) (la lb : string),
    mutex_pair self a b ->
    py_index (selection self) a = Some la ->
    py_index (selection self) b = Some lb ->
    ~ (sel_board st !! la = Some true /\ sel_board st !! lb = Some true).

(** ** Sessions *)

(** The states a session passes through: the state [__init__] leaves, then
    any write to the terminal, any read of the keyboard and any bound
    action called; in multi-selection mode also any ban or unban, which
    [select_option] performs there.  Handling a key is a read followed by a
    call ([session_state_key]), and the session driver stays within these
    states ([session_state_mainloop], [session_state_run]). *)
Inductive session_state (self : config) : state -> Prop :=
| session_init input :
    session_state self (init self input)
| session_write st out :
    session_state self st -> session_state self (with_stdout out st)
| session_read st n :
    session_state self st -> session_state self (read n st).2
| session_call st a :
    session_state self st -> session_state self (call self a st).2
| session_ban st i do_render :
    allow_multiple_selection self = true ->
    session_state self st ->
    session_state self (ban_selection_by_index self i do_render st).2
| session_unban st i do_render :
    allow_multiple_selection self = true ->
    session_state self st ->
    session_state self (unban_selection_by_index self i do_render st).2.

(** [n] consecutive activations of the focused item. *)
Fixpoint activate_n (self : config) (n : nat) : M (option string) :=
  match n with
  | O => ret None
  | S n' => select_option self ;; activate_n self n'
  end.

(** ** Sample sessions *)

(** Two iteration orders: the integers of a set in ascending order, or in
    descending order; the sets of a group in the order of stdpp's
    [elements].  The groups of the sample sessions hold one pair, for which
    every order gives the same partner. *)
Definition ascending : set_iteration :=
  {| iter_sets := elements;
     iter_difference := fun s i => merge_sort Z.le (elements (s ∖ {[i]}));
     iter_sets_members := fun group => reflexivity (elements group);
     iter_difference_members :=
       fun s i => merge_sort_Permutation Z.le (elements (s ∖ {[i]})) |}.
Definition descending : set_iteration :=
  {| iter_sets := elements;
     iter_difference := fun s i => merge_sort Z.ge (elements (s ∖ {[i]}));
     iter_sets_members := fun group => reflexivity (elements group);
     iter_difference_members :=
       fun s i => merge_sort_Permutation Z.ge (elements (s ∖ {[i]})) |}.

(** [Selman(["A", "B", "C"])] *)
Definition abc : config :=
  Config ["A"; "B"; "C"] 0 false None None true ascending.

(** [Selman(["A", "B"], allow_multiple_selection=True,
            mutex_group={frozenset({0, 1})})] *)
Definition pair : config :=
  Config ["A"; "B"] 0 true (Some {[ {[0; 1]} ]}) None true ascending.

(** [Selman(["X", "X"], allow_multiple_selection=True,
            mutex_group={frozenset({0, 1})})] *)
Definition twins : config :=
  Config ["X"; "X"] 0 true (Some {[ {[0; 1]} ]}) None true ascending.

(** [Selman(["a", "b", "a"], allow_multiple_selection=True,
            mutex_group={frozenset({0, 1})})] *)
Definition echo : config :=
  Config ["a"; "b"; "a"] 0 true (Some {[ {[0; 1]} ]}) None true ascending.

(** [Selman(["X", "X", "Y"], allow_multiple_selection=True,
            mutex_group={frozenset({0, 1, 2})})], with an iteration order:
    a set of three items, where the partner of an item depends on the
    order. *)
Definition trio (order : set_iteration) : config :=
  Config ["X"; "X"; "Y"] 0 true (Some {[ {[0; 1; 2]} ]}) None true order.

(** The keys [j], [j], Enter. *)
Definition keys_j_j_enter : list byte := ["j"%byte; "j"%byte; x0d].

(** A terminal whose attributes are a number, with raw and cbreak modes
    that change it. *)
Definition console (attr : Z) : terminal Z := Terminal Z attr [].
Definition raw_of (attr : Z) : Z := attr + 1.
Definition cbreak_of (attr : Z) : Z := 2 * attr.

(** ** Further vocabulary *)

(** The control sequence [ESC [ n c]. *)
Definition csi (n : Z) (c : string) : string :=
  ESC +:+ "[" +:+ pretty n +:+ c.

(** A selection with an item in it, and a mutex group in which
    [get_opposite_mutex_index] finds for every item no partner or an item
    for a partner, in the order in which the interpreter iterates the
    group. *)
Definition safe_config (self : config) : Prop :=
  selection self <> [] /\
  forall i, 0 <= i < len_selection self ->
    match opposite self i with
    | Ok None => True
    | Ok (Some p) => is_Some (py_index (selection self) p)
    | Raise _ | Diverge => False
    end.

(** The [try] block and the [finally] suite of [selman_mainstream], named:
    [selman_mainstream_blocks] shows that [selman_mainstream] is made of
    them. *)
Definition try_block (T : Type) (tty_setraw tty_setcbreak : T -> T)
    (self : config) : SM (process T) (option string) :=
  setraw T tty_setraw ;;
  setcbreak T tty_setcbreak ;;
  lift T (set_cursor_visibility false) ;;
  lift T (enable_autowrap false) ;;
  (if allow_multiple_selection self
   then lift T (set_col_offset (col_offset self))
   else ret tt) ;;
  lift T (print_comments self) ;;
  lift T (initialize_focus self) ;;
  lift T flush ;;
  let* fuel := get (enough_fuel T) in
  mainloop T self fuel.

Definition finally_suite (T : Type) (self : config) (old : T)
  : SM (process T) unit :=
  (if wipe_comments_after_select self
   then lift T (wipe_comments self)
   else ret tt) ;;
  let* cur := lift T (get current_index) in
  let initial_cursor_relative_pos := len_selection self - cur in
  lift T (cursor_down initial_cursor_relative_pos) ;;
  tcsetattr T old ;;
  lift T (set_cursor_visibility true) ;;
  lift T (enable_autowrap true) ;;
  lift T print.

(** What [run] returns when its loop ends with [r]. *)
Definition session_result (self : config) (r : res (option string))
  : res (option string) :=
  match r with
  | Ok v => Ok (if allow_multiple_selection self then v else None)
  | Raise e => Raise e
  | Diverge => Diverge
  end.

(** The boards hold no key that is not a label. *)
Definition boards_within (self : config) (st : state) : Prop :=
  forall k : string,
    (is_Some (sel_board st !! k) -> k ∈ selection self) /\
    (is_Some (banned_board st !! k) -> k ∈ selection self).

(** [Selman(["A", "B"], allow_multiple_selection=True,
            mutex_group={frozenset({0, 5})})]: the partner of item 0 is no
    item. *)
Definition stray : config :=
  Config ["A"; "B"] 0 true (Some {[ {[0; 5]} ]}) None true ascending.

(** * Reasoning about commands *)

Section Frames.
Context {S : Type}.

Lemma keeps_ret {A B} (f : S -> B) (a : A) : keeps f (ret a).
Proof. intros st. reflexivity. Qed.

Lemma keeps_raise {A B} (f : S -> B) e : keeps f (@raise S A e).
Proof. intros st. reflexivity. Qed.

Lemma keeps_diverge {A B} (f : S -> B) : keeps f (@diverge S A).
Proof. intros st. reflexivity. Qed.

Lemma keeps_get {A B} (f : S -> B) (g : S -> A) : keeps f (get g).
Proof. intros st. reflexivity. Qed.

Lemma keeps_modify {B} (f : S -> B) (g : S -> S) :
  (forall st, f (g st) = f st) -> keeps f (modify g).
Proof. intros H st. apply H. Qed.

Lemma keeps_bind {A A' B} (f : S -> B) (m : SM S A) (k : A -> SM S A') :
  keeps f m -> (forall a, keeps f (k a)) -> keeps f (bind m k).
Proof.
  intros Hm Hk st. unfold bind. specialize (Hm st).
  destruct (m st) as [[a|e|] st']; simpl in *; try exact Hm.
  rewrite Hk. exact Hm.
Qed.

Lemma keeps_try_finally {A B} (f : S -> B) (body : SM S A) (fin : SM S unit) :
  keeps f body -> keeps f fin -> keeps f (try_finally body fin).
Proof.
  intros Hb Hf st. unfold try_finally. specialize (Hb st).
  destruct (body st) as [[a|e|] st']; simpl in *; try exact Hb;
    specialize (Hf st'); destruct (fin st') as [[[]|e'|] st'']; simpl in *;
    congruence.
Qed.

Lemma keeps_for_each {A B} (f : S -> B) (l : list A) (body : A -> SM S unit) :
  (forall x, keeps f (body x)) -> keeps f (for_each l body).
Proof.
  intros Hb. induction l as [|x l IH]; simpl.
  - apply keeps_ret.
  - apply keeps_bind; auto.
Qed.

Lemma returns_ret {A} (a : A) : returns (@ret S A a).
Proof. intros st. eexists. reflexivity. Qed.

Lemma returns_get {A} (g : S -> A) : returns (get g).
Proof. intros st. eexists. reflexivity. Qed.

Lemma returns_modify (g : S -> S) : returns (modify g).
Proof. intros st. eexists. reflexivity. Qed.

Lemma returns_bind {A A'} (m : SM S A) (k : A -> SM S A') :
  returns m -> (forall a, returns (k a)) -> returns (bind m k).
Proof.
  intros Hm Hk st. unfold bind. destruct (Hm st) as [a Ha].
  destruct (m st) as [r st']; simpl in Ha; subst r. apply Hk.
Qed.

Lemma returns_try_finally {A} (body : SM S A) (fin : SM S unit) :
  returns body -> returns fin -> returns (try_finally body fin).
Proof.
  intros Hb Hf st. unfold try_finally. destruct (Hb st) as [a Ha].
  destruct (body st) as [r st']; simpl in Ha; subst r.
  destruct (Hf st') as [u Hu].
  destruct (fin st') as [r st'']; simpl in Hu; subst r. destruct u.
  eexists. reflexivity.
Qed.

Lemma returns_for_each {A} (l : list A) (body : A -> SM S unit) :
  (forall x, returns (body x)) -> returns (for_each l body).
Proof.
  intros Hb. induction l as [|x l IH]; simpl.
  - apply returns_ret.
  - apply returns_bind; auto.
Qed.

(** A command that returns hands its value to the rest of the block. *)
Lemma bind_ok {A B} (m : SM S A) (k : A -> SM S B) st a st' :
  m st = (Ok a, st') -> bind m k st = k a st'.
Proof. intros H. unfold bind. rewrite H. reflexivity. Qed.

Lemma bind_raise {A B} (m : SM S A) (k : A -> SM S B) st e st' :
  m st = (Raise e, st') -> bind m k st = (Raise e, st').
Proof. intros H. unfold bind. rewrite H. reflexivity. Qed.

Lemma bind_diverge {A B} (m : SM S A) (k : A -> SM S B) st st' :
  m st = (Diverge, st') -> bind m k st = (Diverge, st').
Proof. intros H. unfold bind. rewrite H. reflexivity. Qed.

End Frames.

Create HintDb keeps.
Create HintDb returns.

#[local] Hint Resolve keeps_ret keeps_raise keeps_diverge keeps_get : keeps.
#[local] Hint Resolve returns_ret returns_get returns_modify : returns.

(** One structural step on a [keeps] or [returns] goal. *)
Ltac frame_step :=
  lazymatch goal with
  | |- keeps _ (bind _ _) => apply keeps_bind; [| intros ?]
  | |- keeps _ (try_finally _ _) => apply keeps_try_finally
  | |- keeps _ (for_each _ _) => apply keeps_for_each; intros ?
  | |- keeps _ (modify _) => apply keeps_modify; intros ?; reflexivity
  | |- keeps _ (if ?b then _ else _) => destruct b
  | |- keeps _ (match ?x with _ => _ end) => destruct x
  | |- keeps _ _ => solve [eauto with keeps]
  | |- returns (bind _ _) => apply returns_bind; [| intros ?]
  | |- returns (try_finally _ _) => apply returns_try_finally
  | |- returns (for_each _ _) => apply returns_for_each; intros ?
  | |- returns (if ?b then _ else _) => destruct b
  | |- returns (match ?x with _ => _ end) => destruct x
  | |- returns _ => solve [eauto with returns]
  end.
Ltac frame := repeat frame_step.

Lemma logic_eq_stdout st st' :
  logic st' = logic st -> st' = with_stdout (stdout st') st.
Proof.
  destruct st, st'. unfold logic, with_stdout. simpl. intros H.
  injection H as -> -> -> -> ->. reflexivity.
Qed.

Section KeepsLogic.
Context {A : Type} (m : M A).
Hypothesis Hm : keeps logic m.

Lemma keeps_logic_current_index : keeps current_index m.
Proof. intros st. specialize (Hm st). unfold logic in Hm. congruence. Qed.
Lemma keeps_logic_sel_board : keeps sel_board m.
Proof. intros st. specialize (Hm st). unfold logic in Hm. congruence. Qed.
Lemma keeps_logic_banned_board : keeps banned_board m.
Proof. intros st. specialize (Hm st). unfold logic in Hm. congruence. Qed.
Lemma keeps_logic_terminate : keeps _terminate m.
Proof. intros st. specialize (Hm st). unfold logic in Hm. congruence. Qed.
Lemma keeps_logic_stdin : keeps stdin m.
Proof. intros st. specialize (Hm st). unfold logic in Hm. congruence. Qed.
End KeepsLogic.

#[local] Hint Resolve keeps_logic_current_index keeps_logic_sel_board
  keeps_logic_banned_board keeps_logic_terminate keeps_logic_stdin | 5 : keeps.

(** ** The streams, [ansi_control] and [printer] only write *)

Lemma keeps_write s : keeps logic (write s).
Proof. unfold write. frame. Qed.
Lemma returns_write s : returns (write s).
Proof. unfold write. frame. Qed.
#[local] Hint Resolve keeps_write returns_write : keeps returns.

Lemma keeps_print : keeps logic print.
Proof. unfold print. frame. Qed.
Lemma returns_print : returns print.
Proof. unfold print. frame. Qed.
Lemma keeps_flush {B} (f : state -> B) : keeps f flush.
Proof. unfold flush. frame. Qed.
Lemma returns_flush : returns flush.
Proof. unfold flush. frame. Qed.
#[local] Hint Resolve keeps_print returns_print keeps_flush returns_flush
  : keeps returns.

Lemma keeps_getitem {T B} (f : state -> B) (l : list T) i : keeps f (getitem l i).
Proof. unfold getitem. frame. Qed.
Lemma keeps_dict_get {B} (f : state -> B) d k : keeps f (dict_get d k).
Proof. unfold dict_get. frame. Qed.
#[local] Hint Resolve keeps_getitem keeps_dict_get : keeps.

Lemma keeps_cursor_up d : keeps logic (cursor_up d).
Proof. unfold cursor_up. frame. Qed.
Lemma keeps_cursor_down d : keeps logic (cursor_down d).
Proof. unfold cursor_down. frame. Qed.
Lemma returns_cursor_up d : returns (cursor_up d).
Proof. unfold cursor_up. frame. Qed.
Lemma returns_cursor_down d : returns (cursor_down d).
Proof. unfold cursor_down. frame. Qed.
#[local] Hint Resolve keeps_cursor_up keeps_cursor_down
  returns_cursor_up returns_cursor_down : keeps returns.

Lemma keeps_set_col_offset o : keeps logic (set_col_offset o).
Proof. unfold set_col_offset. frame. Qed.
Lemma returns_set_col_offset o : returns (set_col_offset o).
Proof. unfold set_col_offset. frame. Qed.
Lemma keeps_set_cursor_visibility b : keeps logic (set_cursor_visibility b).
Proof. unfold set_cursor_visibility. frame. Qed.
Lemma returns_set_cursor_visibility b : returns (set_cursor_visibility b).
Proof. unfold set_cursor_visibility. frame. Qed.
Lemma keeps_enable_autowrap b : keeps logic (enable_autowrap b).
Proof. unfold enable_autowrap. frame. Qed.
Lemma returns_enable_autowrap b : returns (enable_autowrap b).
Proof. unfold enable_autowrap. frame. Qed.
#[local] Hint Resolve keeps_set_col_offset returns_set_col_offset
  keeps_set_cursor_visibility returns_set_cursor_visibility
  keeps_enable_autowrap returns_enable_autowrap : keeps returns.

Lemma keeps_erase_line o : keeps logic (erase_line o).
Proof. unfold erase_line. frame. Qed.
Lemma returns_erase_line o : returns (erase_line o).
Proof. unfold erase_line. frame. Qed.
#[local] Hint Resolve keeps_erase_line returns_erase_line : keeps returns.

(** Moving the cursor returns, and so does the callable it hands back. *)
Lemma move_cursor_spec d st :
  exists restore out,
    move_cursor_by_relative_pos_row d st = (Ok restore, with_stdout out st) /\
    keeps logic restore /\ returns restore.
Proof.
  unfold move_cursor_by_relative_pos_row.
  destruct (d =? 0).
  { exists (ret tt), (stdout st). split; [destruct st; reflexivity|].
    split; frame. }
  destruct (0 <? d).
  - destruct (returns_cursor_down (Z.abs d) st) as [[] Hr].
    pose proof (keeps_cursor_down (Z.abs d) st) as Hk.
    apply logic_eq_stdout in Hk.
    exists (cursor_up (Z.abs d)), (stdout (cursor_down (Z.abs d) st).2).
    split; [|split; frame].
    unfold bind. destruct (cursor_down (Z.abs d) st) as [r st'].
    simpl in *. subst r. rewrite <- Hk. reflexivity.
  - destruct (returns_cursor_up (Z.abs d) st) as [[] Hr].
    pose proof (keeps_cursor_up (Z.abs d) st) as Hk.
    apply logic_eq_stdout in Hk.
    exists (cursor_down (Z.abs d)), (stdout (cursor_up (Z.abs d) st).2).
    split; [|split; frame].
    unfold bind. destruct (cursor_up (Z.abs d) st) as [r st'].
    simpl in *. subst r. rewrite <- Hk. reflexivity.
Qed.

Lemma keeps_move_cursor d : keeps logic (move_cursor_by_relative_pos_row d).
Proof.
  intros st. destruct (move_cursor_spec d st) as (restore & out & -> & _).
  reflexivity.
Qed.
#[local] Hint Resolve keeps_move_cursor : keeps.

Lemma keeps_write_line t c r : keeps logic (write_line t c r).
Proof. unfold write_line. frame. Qed.
Lemma returns_write_line t c r : returns (write_line t c r).
Proof. unfold write_line. frame. Qed.
#[local] Hint Resolve keeps_write_line returns_write_line : keeps returns.

Lemma keeps_render_at_row rp o draw :
  keeps logic draw -> keeps logic (_render_at_row rp o draw).
Proof.
  intros Hd. unfold _render_at_row, _restore_cursor_pos_col.
  destruct rp as [rp|]; [|frame].
  intros st.
  destruct (move_cursor_spec rp st) as (restore & out & Hmv & Hk & _).
  rewrite (bind_ok _ _ _ _ _ Hmv).
  rewrite keeps_try_finally; [reflexivity|exact Hd|frame].
Qed.

Lemma returns_render_at_row rp o draw :
  returns draw -> returns (_render_at_row rp o draw).
Proof.
  intros Hd. unfold _render_at_row, _restore_cursor_pos_col.
  destruct rp as [rp|]; [|frame].
  intros st.
  destruct (move_cursor_spec rp st) as (restore & out & Hmv & _ & Hr).
  rewrite (bind_ok _ _ _ _ _ Hmv).
  apply returns_try_finally; [exact Hd|frame].
Qed.

Lemma keeps_print_text_effect t e o rp : keeps logic (print_text_effect t e o rp).
Proof.
  unfold print_text_effect, print_effect.
  destruct e;
    [unfold print_unfocused|unfold print_focused|unfold print_selected
    |unfold print_selected_focused|unfold print_banned
    |unfold print_banned_focused];
    apply keeps_render_at_row; frame.
Qed.

Lemma returns_print_text_effect t e o rp : returns (print_text_effect t e o rp).
Proof.
  unfold print_text_effect, print_effect.
  destruct e;
    [unfold print_unfocused|unfold print_focused|unfold print_selected
    |unfold print_selected_focused|unfold print_banned
    |unfold print_banned_focused];
    apply returns_render_at_row; frame.
Qed.
#[local] Hint Resolve keeps_print_text_effect returns_print_text_effect
  : keeps returns.

(** ** Commands that only write *)

Lemma emits_spec {A} (m : M A) st :
  keeps logic m -> returns m ->
  exists a out, m st = (Ok a, with_stdout out st).
Proof.
  intros Hk Hr. destruct (Hr st) as [a Ha]. specialize (Hk st).
  apply logic_eq_stdout in Hk.
  exists a, (stdout (m st).2). rewrite <- Hk, <- Ha.
  destruct (m st); reflexivity.
Qed.

Lemma bind_emits {A B} (m : M A) (k : A -> M B) st :
  keeps logic m -> returns m ->
  exists a out, bind m k st = k a (with_stdout out st).
Proof.
  intros Hk Hr. destruct (emits_spec m st Hk Hr) as (a & out & H).
  exists a, out. apply bind_ok, H.
Qed.

Lemma getitem_ok {S T} (l : list T) i a :
  py_index l i = Some a -> @getitem S T l i = ret a.
Proof. intros H. unfold getitem. rewrite H. reflexivity. Qed.

Lemma getitem_raise {S T} (l : list T) i :
  py_index l i = None -> @getitem S T l i = raise IndexError.
Proof. intros H. unfold getitem. rewrite H. reflexivity. Qed.

Lemma py_index_valid {T} (l : list T) i :
  0 <= i < Z.of_nat (length l) -> py_index l i = l !! Z.to_nat i.
Proof.
  intros H. unfold py_index.
  destruct (Z.leb_spec 0 i); [|lia].
  destruct (Z.ltb_spec i (Z.of_nat (length l))); [|lia]. reflexivity.
Qed.

Lemma py_index_elem_of {T} (l : list T) i a :
  py_index l i = Some a -> a ∈ l.
Proof.
  unfold py_index. intros H.
  destruct ((0 <=? i) && (i <? Z.of_nat (length l))).
  - eapply list_elem_of_lookup_2, H.
  - destruct ((- Z.of_nat (length l) <=? i) && (i <? 0)); [|discriminate].
    eapply list_elem_of_lookup_2, H.
Qed.

Lemma is_index_valid_spec self i :
  is_index_valid self i = true <-> 0 <= i < len_selection self.
Proof.
  unfold is_index_valid. rewrite andb_true_iff, Z.leb_le, Z.ltb_lt. tauto.
Qed.

Lemma is_index_valid_label self i :
  is_index_valid self i = true ->
  exists l, py_index (selection self) i = Some l.
Proof.
  intros H%is_index_valid_spec. unfold len_selection in H.
  rewrite py_index_valid by exact H.
  apply lookup_lt_is_Some_2. lia.
Qed.

(** ** The methods of [core] that only draw *)

Lemma keeps_current_label {B} (f : state -> B) self : keeps f (current_label self).
Proof. unfold current_label. frame. Qed.
#[local] Hint Resolve keeps_current_label : keeps.

Lemma keeps_render_text_effect self e ti :
  keeps logic (render_text_effect self e ti).
Proof.
  unfold render_text_effect, get_relative_pos_by_index.
  apply keeps_bind; [frame|intros _].
  destruct ti as [t|]; [|frame].
  destruct (is_index_valid self t); [|frame].
  apply keeps_bind; [frame|intros rp].
  intros st.
  destruct (move_cursor_spec rp st) as (restore & out & Hmv & Hk & _).
  rewrite (bind_ok _ _ _ _ _ Hmv).
  rewrite keeps_try_finally; [reflexivity|frame|exact Hk].
Qed.
#[local] Hint Resolve keeps_render_text_effect : keeps.

(** Drawing a row returns as soon as the focus is on an item. *)
Lemma render_text_effect_ok self e ti st l :
  py_index (selection self) (current_index st) = Some l ->
  exists out, render_text_effect self e ti st = (Ok tt, with_stdout out st).
Proof.
  intros Hcur.
  assert (Hfocus : forall out', exists out,
    (let* text := current_label self in
     print_text_effect text e (col_offset self) None) (with_stdout out' st)
    = (Ok tt, with_stdout out st)).
  { intros out'. unfold current_label, get.
    unfold bind at 1 2. simpl. rewrite (getitem_ok _ _ _ Hcur). unfold ret.
    destruct (emits_spec (print_text_effect l e (col_offset self) None)
                (with_stdout out' st)) as ([] & out & ->); [frame..|].
    exists out. reflexivity. }
  unfold render_text_effect.
  destruct (bind_emits (set_col_offset (col_offset self))
    (fun _ => match ti with
      | Some target_index =>
          if is_index_valid self target_index
          then
            let* relative_pos := get_relative_pos_by_index target_index in
            let* restore := move_cursor_by_relative_pos_row relative_pos in
            try_finally
              (let* text := getitem (selection self) target_index in
               print_text_effect text e (col_offset self) None) restore
          else
            let* text := current_label self in
            print_text_effect text e (col_offset self) None
      | None =>
          let* text := current_label self in
          print_text_effect text e (col_offset self) None
      end) st) as (_ & out0 & ->); [frame..|].
  destruct ti as [t|]; [|apply Hfocus].
  destruct (is_index_valid self t) eqn:Hv; [|apply Hfocus].
  destruct (is_index_valid_label _ _ Hv) as [lt Hlt].
  unfold get_relative_pos_by_index, get. unfold bind at 1 2. unfold ret at 1.
  cbv beta iota.
  set (rp := t - current_index (with_stdout out0 st)).
  destruct (move_cursor_spec rp (with_stdout out0 st))
    as (restore & out1 & Hmv & Hk & Hr).
  rewrite (bind_ok _ _ _ _ _ Hmv).
  rewrite (getitem_ok _ _ _ Hlt).
  destruct (emits_spec
    (try_finally
       (let* text := ret lt in print_text_effect text e (col_offset self) None)
       restore) (with_stdout out1 (with_stdout out0 st)))
    as ([] & out & ->); [frame|frame|].
  exists out. reflexivity.
Qed.

Lemma keeps_print_comments self : keeps logic (print_comments self).
Proof. unfold print_comments. frame. Qed.
Lemma returns_print_comments self : returns (print_comments self).
Proof. unfold print_comments. frame. Qed.
Lemma keeps_wipe_comments self : keeps logic (wipe_comments self).
Proof. unfold wipe_comments. frame. Qed.
Lemma returns_wipe_comments self : returns (wipe_comments self).
Proof. unfold wipe_comments. frame. Qed.
Lemma keeps_initialize_focus self : keeps logic (initialize_focus self).
Proof. unfold initialize_focus. frame. Qed.
#[local] Hint Resolve keeps_print_comments returns_print_comments
  keeps_wipe_comments returns_wipe_comments keeps_initialize_focus
  : keeps returns.

Lemma keeps_sel_board_get {B} (f : state -> B) k : keeps f (sel_board_get k).
Proof. unfold sel_board_get. frame. Qed.
Lemma keeps_banned_board_get {B} (f : state -> B) k : keeps f (banned_board_get k).
Proof. unfold banned_board_get. frame. Qed.
#[local] Hint Resolve keeps_sel_board_get keeps_banned_board_get : keeps.

Lemma keeps_is_index_selected {B} (f : state -> B) self i :
  keeps f (is_index_selected self i).
Proof. unfold is_index_selected. frame. Qed.
Lemma keeps_is_index_banned {B} (f : state -> B) self i :
  keeps f (is_index_banned self i).
Proof. unfold is_index_banned. frame. Qed.
#[local] Hint Resolve keeps_is_index_selected keeps_is_index_banned : keeps.

Lemma keeps_set_to_focused self i : keeps logic (set_to_focused self i).
Proof. unfold set_to_focused. frame. Qed.
Lemma keeps_set_to_unfocused self i : keeps logic (set_to_unfocused self i).
Proof. unfold set_to_unfocused. frame. Qed.
#[local] Hint Resolve keeps_set_to_focused keeps_set_to_unfocused : keeps.

(** ** The mutex partner *)

(** What an iteration lists is what the set holds. *)
Lemma elem_of_iter_sets (order : set_iteration) (group : gset (gset Z))
    (s : gset Z) :
  s ∈ iter_sets order group <-> s ∈ group.
Proof. rewrite (iter_sets_members order group). apply elem_of_elements. Qed.

Lemma elem_of_iter_difference (order : set_iteration) (s : gset Z) (i j : Z) :
  j ∈ iter_difference order s i <-> j ∈ s /\ j <> i.
Proof.
  rewrite (iter_difference_members order s i), elem_of_elements.
  rewrite elem_of_difference, elem_of_singleton. reflexivity.
Qed.

Lemma iter_difference_nil (order : set_iteration) (s : gset Z) (i : Z) :
  i ∈ s -> (iter_difference order s i = [] <-> s = {[i]}).
Proof.
  intros Hi. split.
  - intros He. apply set_eq. intros x. rewrite elem_of_singleton. split.
    + intros Hx. destruct (decide (x = i)) as [|Hne]; [assumption|].
      exfalso. apply (not_elem_of_nil x). rewrite <- He.
      apply elem_of_iter_difference. split; assumption.
    + intros ->. exact Hi.
  - intros ->. destruct (iter_difference order {[i]} i) as [|j rest] eqn:He;
      [reflexivity|].
    assert (Hj : j ∈ iter_difference order {[i]} i) by (rewrite He; left).
    apply elem_of_iter_difference in Hj as [Hj Hne].
    apply elem_of_singleton in Hj. contradiction.
Qed.

Lemma mutex_scan_pure self i l st st' :
  mutex_scan self i l st = ((mutex_scan self i l st').1, st).
Proof.
  induction l as [|s l IH]; simpl; [reflexivity|].
  destruct (bool_decide (i ∈ s)); [|exact IH].
  destruct (iter_difference (set_order self) s i); reflexivity.
Qed.

Lemma get_opposite_mutex_index_pure self i st :
  get_opposite_mutex_index self i st = (opposite self i, st).
Proof.
  unfold opposite, get_opposite_mutex_index.
  destruct (mutex_group self); [|reflexivity].
  apply mutex_scan_pure.
Qed.

Lemma keeps_get_opposite_mutex_index {B} (f : state -> B) self i :
  keeps f (get_opposite_mutex_index self i).
Proof. intros st. rewrite get_opposite_mutex_index_pure. reflexivity. Qed.
#[local] Hint Resolve keeps_get_opposite_mutex_index : keeps.

Lemma mutex_scan_spec self i (l : list (gset Z)) st :
  (forall s : gset Z, s ∈ l -> i ∈ s -> (2 <= size s)%nat) ->
  (mutex_scan self i l st = (Ok None, st) /\
   forall s : gset Z, s ∈ l -> i ∉ s)
  \/ (exists (s : gset Z) (j : Z),
        List.find (fun s : gset Z => bool_decide (i ∈ s)) l = Some s /\
        j ∈ s /\ j <> i /\
        mutex_scan self i l st = (Ok (Some j), st)).
Proof.
  induction l as [|s l IH]; intros Hsz; simpl.
  - left. split; [reflexivity|]. intros s Hs. inversion Hs.
  - destruct (bool_decide (i ∈ s)) eqn:Hin.
    + apply bool_decide_eq_true in Hin. right.
      assert (Hs : (2 <= size s)%nat) by (apply Hsz; [left|exact Hin]).
      destruct (iter_difference (set_order self) s i) as [|j rest] eqn:He.
      * apply (iter_difference_nil _ _ _ Hin) in He. subst s.
        rewrite size_singleton in Hs. lia.
      * assert (Hj : j ∈ iter_difference (set_order self) s i)
          by (rewrite He; left).
        apply elem_of_iter_difference in Hj as [Hjs Hji].
        exists s, j.
        split; [reflexivity|]. split; [exact Hjs|]. split; [exact Hji|].
        reflexivity.
    + apply bool_decide_eq_false in Hin.
      destruct IH as [[Hn Hall]|(s' & j & Hh & Hj & Hne & Hs)].
      * intros s' Hs'. apply Hsz. right. exact Hs'.
      * left. split; [exact Hn|].
        intros s' Hs'. apply elem_of_cons in Hs' as [->|Hs']; auto.
      * right. exists s', j. auto.
Qed.

(** C10.  When every configured set containing [i] has at least two
    members, [get_opposite_mutex_index(i)] returns without an error and
    without touching the state, in whatever order the interpreter iterates
    the sets: either [None], in which case the group is absent or none of
    its sets contains [i], or a member [j <> i] of the first set, in the
    order of iteration of the group, that contains [i]. *)
Theorem get_opposite_mutex_index_safe self i st :
  (forall (g : gset (gset Z)) (s : gset Z),
     mutex_group self = Some g -> s ∈ g -> i ∈ s -> (2 <= size s)%nat) ->
  (get_opposite_mutex_index self i st = (Ok None, st) /\
   forall (g : gset (gset Z)) (s : gset Z),
     mutex_group self = Some g -> s ∈ g -> i ∉ s)
  \/ (exists (g : gset (gset Z)) (s : gset Z) (j : Z),
        mutex_group self = Some g /\
        List.find (fun s : gset Z => bool_decide (i ∈ s))
                  (iter_sets (set_order self) g) = Some s /\
        j ∈ s /\ j <> i /\
        get_opposite_mutex_index self i st = (Ok (Some j), st)).
Proof.
  intros Hsz. unfold get_opposite_mutex_index.
  destruct (mutex_group self) as [g|] eqn:Hg.
  - destruct (mutex_scan_spec self i (iter_sets (set_order self) g) st)
      as [[Hn Hall]|(s & j & H)].
    + intros s Hs. apply (Hsz g s eq_refl). apply elem_of_iter_sets in Hs.
      exact Hs.
    + left. split; [exact Hn|]. intros g' s [= <-] Hs.
      apply Hall, elem_of_iter_sets, Hs.
    + right. exists g, s, j. split; [reflexivity|exact H].
  - left. split; [reflexivity|]. intros g s [=].
Qed.

Lemma get_opposite_mutex_index_safe_witness :
  (get_opposite_mutex_index pair 0 (init pair []) = (Ok None, init pair []) /\
   forall (g : gset (gset Z)) (s : gset Z),
     mutex_group pair = Some g -> s ∈ g -> 0 ∉ s)
  \/ (exists (g : gset (gset Z)) (s : gset Z) (j : Z),
        mutex_group pair = Some g /\
        List.find (fun s : gset Z => bool_decide (0 ∈ s))
                  (iter_sets (set_order pair) g) = Some s /\
        j ∈ s /\ j <> 0 /\
        get_opposite_mutex_index pair 0 (init pair []) =
          (Ok (Some j), init pair [])).
Proof.
  apply get_opposite_mutex_index_safe.
  intros g s [= <-] Hs _. apply elem_of_singleton in Hs as ->.
  vm_compute. lia.
Defined.

(** ** Moving the focus *)

(** C7.  [change_focus(delta)] with [focus + delta] outside [[0, N)] returns
    at once: no error, the same state - focus, every selected and banned
    flag, termination flag - and nothing written to the terminal. *)
Theorem change_focus_out_of_range self delta st :
  ~ (0 <= current_index st + delta < len_selection self) ->
  change_focus self delta st = (Ok tt, st).
Proof.
  intros H. unfold change_focus, get. unfold bind at 1. cbv beta iota.
  destruct (Z.leb_spec 0 (current_index st + delta));
    destruct (Z.ltb_spec (current_index st + delta) (len_selection self));
    simpl; try reflexivity.
  lia.
Qed.

Lemma change_focus_out_of_range_witness :
  change_focus abc (-1) (init abc []) = (Ok tt, init abc []) /\
  change_focus abc 3 (init abc []) = (Ok tt, init abc []).
Proof.
  split; apply change_focus_out_of_range; vm_compute; intros [H1 H2];
    congruence.
Defined.

(** ** Running a block step by step *)

Lemma bind_assoc {S A B C} (m : SM S A) (k : A -> SM S B) (h : B -> SM S C) st :
  bind (bind m k) h st = bind m (fun a => bind (k a) h) st.
Proof. unfold bind. destruct (m st) as [[a|e|] st']; reflexivity. Qed.

Lemma bind_ret {S A B} (a : A) (k : A -> SM S B) st : bind (ret a) k st = k a st.
Proof. reflexivity. Qed.

Lemma bind_get {S A B} (f : S -> A) (k : A -> SM S B) st :
  bind (get f) k st = k (f st) st.
Proof. reflexivity. Qed.

Lemma bind_modify {S B} (g : S -> S) (k : unit -> SM S B) st :
  bind (modify g) k st = k tt (g st).
Proof. reflexivity. Qed.

(** Reduce the projections of an updated state, and nothing else. *)
Ltac proj :=
  cbn [current_index sel_board banned_board _terminate stdout stdin
       with_current_index with_sel_board with_banned_board with_terminate
       with_stdout with_stdin fst snd] in *.

Lemma current_label_ok self st l :
  py_index (selection self) (current_index st) = Some l ->
  current_label self st = (Ok l, st).
Proof.
  intros H. unfold current_label. rewrite bind_get, (getitem_ok _ _ _ H).
  reflexivity.
Qed.

Lemma current_label_raise self st :
  py_index (selection self) (current_index st) = None ->
  current_label self st = (Raise IndexError, st).
Proof.
  intros H. unfold current_label. rewrite bind_get, (getitem_raise _ _ H).
  reflexivity.
Qed.

Lemma sel_board_get_ok st k b :
  sel_board st !! k = Some b -> sel_board_get k st = (Ok b, st).
Proof.
  intros H. unfold sel_board_get, dict_get. rewrite bind_get, H. reflexivity.
Qed.

Lemma banned_board_get_ok st k b :
  banned_board st !! k = Some b -> banned_board_get k st = (Ok b, st).
Proof.
  intros H. unfold banned_board_get, dict_get. rewrite bind_get, H. reflexivity.
Qed.

Lemma is_index_selected_ok self st i l b :
  py_index (selection self) i = Some l -> sel_board st !! l = Some b ->
  is_index_selected self i st = (Ok b, st).
Proof.
  intros Hi Hb. unfold is_index_selected.
  rewrite (getitem_ok _ _ _ Hi), bind_ret. apply sel_board_get_ok, Hb.
Qed.

Lemma is_index_banned_ok self st i l b :
  py_index (selection self) i = Some l -> banned_board st !! l = Some b ->
  is_index_banned self i st = (Ok b, st).
Proof.
  intros Hi Hb. unfold is_index_banned.
  rewrite (getitem_ok _ _ _ Hi), bind_ret. apply banned_board_get_ok, Hb.
Qed.

(** Reading a flag through an index is reading the board at its label. *)
Lemma selected_iff self st i l :
  py_index (selection self) i = Some l ->
  selected self st i <-> sel_board st !! l = Some true.
Proof.
  intros Hi. unfold selected, is_index_selected, sel_board_get, dict_get.
  rewrite (getitem_ok _ _ _ Hi), bind_ret, bind_get.
  destruct (sel_board st !! l) as [[]|]; simpl; split; congruence.
Qed.

Lemma banned_iff self st i l :
  py_index (selection self) i = Some l ->
  banned self st i <-> banned_board st !! l = Some true.
Proof.
  intros Hi. unfold banned, is_index_banned, banned_board_get, dict_get.
  rewrite (getitem_ok _ _ _ Hi), bind_ret, bind_get.
  destruct (banned_board st !! l) as [[]|]; simpl; split; congruence.
Qed.

Lemma selected_label self st i :
  selected self st i ->
  exists l, py_index (selection self) i = Some l /\ sel_board st !! l = Some true.
Proof.
  intros H. destruct (py_index (selection self) i) as [l|] eqn:Hi.
  - exists l. split; [reflexivity|]. apply (selected_iff self st i l Hi), H.
  - unfold selected, is_index_selected in H.
    rewrite (getitem_raise _ _ Hi) in H. discriminate H.
Qed.

Lemma banned_label self st i :
  banned self st i ->
  exists l, py_index (selection self) i = Some l /\
            banned_board st !! l = Some true.
Proof.
  intros H. destruct (py_index (selection self) i) as [l|] eqn:Hi.
  - exists l. split; [reflexivity|]. apply (banned_iff self st i l Hi), H.
  - unfold banned, is_index_banned in H.
    rewrite (getitem_raise _ _ Hi) in H. discriminate H.
Qed.

(** ** Banning and unbanning *)

Lemma unban_selection_by_index_ok self st i r l li :
  py_index (selection self) (current_index st) = Some l ->
  py_index (selection self) i = Some li ->
  exists out,
    unban_selection_by_index self i r st =
    (Ok tt, State (current_index st) (sel_board st)
                  (<[li := false]> (banned_board st))
                  (_terminate st) out (stdin st)).
Proof.
  intros Hcur Hi. unfold unban_selection_by_index, banned_board_set.
  destruct r; cbv iota.
  - destruct (render_text_effect_ok self UNFOCUSED (Some i) st l Hcur)
      as [out Hr].
    rewrite (bind_ok _ _ _ _ _ Hr), (getitem_ok _ _ _ Hi), bind_ret.
    exists out. reflexivity.
  - rewrite bind_ret, (getitem_ok _ _ _ Hi), bind_ret.
    exists (stdout st). reflexivity.
Qed.

Lemma ban_selection_by_index_ok self st i r l li :
  py_index (selection self) (current_index st) = Some l ->
  py_index (selection self) i = Some li ->
  exists out,
    ban_selection_by_index self i r st =
    (Ok tt, State (current_index st)
                  (<[li := false]> (sel_board st))
                  (<[li := true]> (banned_board st))
                  (_terminate st) out (stdin st)).
Proof.
  intros Hcur Hi. unfold ban_selection_by_index, sel_board_set, banned_board_set.
  destruct r; cbv iota.
  - destruct (render_text_effect_ok self BANNED (Some i) st l Hcur)
      as [out Hr].
    rewrite (bind_ok _ _ _ _ _ Hr), (getitem_ok _ _ _ Hi), bind_ret.
    rewrite bind_modify, bind_ret.
    exists out. reflexivity.
  - rewrite bind_ret, (getitem_ok _ _ _ Hi), bind_ret.
    rewrite bind_modify, bind_ret.
    exists (stdout st). reflexivity.
Qed.

Lemma opposite_not_diverge self i : opposite self i <> Diverge.
Proof.
  unfold opposite, get_opposite_mutex_index.
  destruct (mutex_group self) as [g|]; [|discriminate].
  generalize (iter_sets (set_order self) g). intros ll.
  induction ll as [|s ll IH]; simpl; [discriminate|].
  destruct (bool_decide (i ∈ s)); [|exact IH].
  destruct (iter_difference (set_order self) s i); discriminate.
Qed.

(** ** Activating the focused item *)

(** Single-selection mode. *)
Lemma select_option_single self st l :
  allow_multiple_selection self = false ->
  py_index (selection self) (current_index st) = Some l ->
  exists out,
    select_option self st =
    (Ok (Some l), State (current_index st) (<[l := true]> (sel_board st))
                        (banned_board st) true out (stdin st)).
Proof.
  intros Hmode Hcur. unfold select_option. rewrite Hmode. cbn [negb].
  rewrite (bind_ok _ _ _ _ _ (current_label_ok self st l Hcur)).
  unfold sel_board_set. rewrite bind_modify.
  set (st1 := with_sel_board _ st).
  destruct (render_text_effect_ok self SELECTED None st1 l Hcur) as [out Hr].
  rewrite (bind_ok _ _ _ _ _ Hr). unfold terminate. rewrite bind_modify.
  set (st2 := with_terminate true _).
  rewrite (bind_ok _ _ _ _ _ (current_label_ok self st2 l Hcur)).
  exists out. reflexivity.
Qed.

Lemma sel_board_get_raise st k :
  sel_board st !! k = None -> sel_board_get k st = (Raise KeyError, st).
Proof.
  intros H. unfold sel_board_get, dict_get. rewrite bind_get, H. reflexivity.
Qed.

Lemma is_index_banned_no_item self st i :
  py_index (selection self) i = None ->
  is_index_banned self i st = (Raise IndexError, st).
Proof.
  intros Hi. unfold is_index_banned. rewrite (getitem_raise _ _ Hi).
  reflexivity.
Qed.

Lemma is_index_banned_no_key self st i l :
  py_index (selection self) i = Some l -> banned_board st !! l = None ->
  is_index_banned self i st = (Raise KeyError, st).
Proof.
  intros Hi Hb. unfold is_index_banned, banned_board_get, dict_get.
  rewrite (getitem_ok _ _ _ Hi), bind_ret, bind_get, Hb. reflexivity.
Qed.

Lemma ban_selection_by_index_no_item self st i l :
  py_index (selection self) (current_index st) = Some l ->
  py_index (selection self) i = None ->
  exists out,
    ban_selection_by_index self i true st = (Raise IndexError, with_stdout out st).
Proof.
  intros Hcur Hi. unfold ban_selection_by_index.
  destruct (render_text_effect_ok self BANNED (Some i) st l Hcur) as [out Hr].
  rewrite (bind_ok _ _ _ _ _ Hr), (getitem_raise _ _ Hi).
  exists out. reflexivity.
Qed.

(** [select_option] is [select_option_effect] and some drawing. *)
Lemma select_option_effect_correct self st :
  exists out,
    select_option self st =
    ((select_option_effect self st).1,
     with_stdout out (select_option_effect self st).2).
Proof.
  unfold select_option_effect.
  destruct (py_index (selection self) (current_index st)) as [l|] eqn:Hcur.
  2: { unfold select_option.
       destruct (allow_multiple_selection self); cbn [negb];
         rewrite (bind_raise _ _ _ _ _ (current_label_raise self st Hcur));
         exists (stdout st); destruct st; reflexivity. }
  destruct (allow_multiple_selection self) eqn:Hmode; cbn [negb].
  2: { destruct (select_option_single self st l Hmode Hcur) as [out ->].
       exists out. reflexivity. }
  pose proof (fun st' =>
    get_opposite_mutex_index_pure self (current_index st) st') as Hget.
  unfold select_option. rewrite Hmode. cbn [negb].
  rewrite (bind_ok _ _ _ _ _ (current_label_ok self st l Hcur)).
  destruct (sel_board st !! l) as [[|]|] eqn:Hsel.
  - (* when toggle to unselect *)
    rewrite (bind_ok _ _ _ _ _ (sel_board_get_ok st l true Hsel)).
    rewrite (bind_ok _ _ _ _ _ (current_label_ok self st l Hcur)).
    unfold sel_board_set. rewrite bind_modify.
    set (st1 := with_sel_board _ st).
    destruct (render_text_effect_ok self FOCUSED None st1 l Hcur) as [out0 Hr].
    rewrite (bind_ok _ _ _ _ _ Hr), bind_get. proj.
    destruct (opposite self (current_index st)) as [[p|]|e|] eqn:Hopp.
    + rewrite (bind_ok _ _ _ _ _ (Hget _)).
      destruct (py_index (selection self) p) as [lp|] eqn:Hp.
      * destruct (banned_board st !! lp) as [[|]|] eqn:Hb.
        -- rewrite (bind_ok _ _ _ _ _
              (is_index_banned_ok self (with_stdout out0 st1) p lp true Hp Hb)).
           destruct (unban_selection_by_index_ok self (with_stdout out0 st1)
                       p true l lp Hcur Hp) as [out Hu].
           rewrite (bind_ok _ _ _ _ _ Hu). exists out. reflexivity.
        -- rewrite (bind_ok _ _ _ _ _
              (is_index_banned_ok self (with_stdout out0 st1) p lp false Hp Hb)).
           exists out0. reflexivity.
        -- rewrite (bind_raise _ _ _ _ _
              (is_index_banned_no_key self (with_stdout out0 st1) p lp Hp Hb)).
           exists out0. reflexivity.
      * rewrite (bind_raise _ _ _ _ _
              (is_index_banned_no_item self (with_stdout out0 st1) p Hp)).
        exists out0. reflexivity.
    + rewrite (bind_ok _ _ _ _ _ (Hget _)). exists out0. reflexivity.
    + rewrite (bind_raise _ _ _ _ _ (Hget _)). exists out0. reflexivity.
    + destruct (opposite_not_diverge _ _ Hopp).
  - (* when toggle to select *)
    rewrite (bind_ok _ _ _ _ _ (sel_board_get_ok st l false Hsel)).
    rewrite (bind_ok _ _ _ _ _ (current_label_ok self st l Hcur)).
    unfold sel_board_set. rewrite bind_modify, bind_get.
    set (st1 := with_sel_board _ st).
    destruct (unban_selection_by_index_ok self st1 (current_index st1) false
                l l Hcur Hcur) as [out1 Hu].
    rewrite (bind_ok _ _ _ _ _ Hu). cbv beta.
    match goal with |- context [bind (render_text_effect _ _ _) _ ?s] =>
      destruct (render_text_effect_ok self SELECTED_FOCUSED None s l Hcur)
        as [out0 Hr] end.
    rewrite (bind_ok _ _ _ _ _ Hr), bind_get. proj.
    destruct (opposite self (current_index st)) as [[p|]|e|] eqn:Hopp.
    + rewrite (bind_ok _ _ _ _ _ (Hget _)).
      destruct (py_index (selection self) p) as [lp|] eqn:Hp.
      * match goal with |- context [bind (ban_selection_by_index _ _ _) _ ?s] =>
          destruct (ban_selection_by_index_ok self s p true l lp Hcur Hp)
            as [out Hb] end.
        rewrite (bind_ok _ _ _ _ _ Hb). exists out. reflexivity.
      * match goal with |- context [bind (ban_selection_by_index _ _ _) _ ?s] =>
          destruct (ban_selection_by_index_no_item self s p l Hcur Hp)
            as [out Hb] end.
        rewrite (bind_raise _ _ _ _ _ Hb). exists out. reflexivity.
    + rewrite (bind_ok _ _ _ _ _ (Hget _)). exists out0. reflexivity.
    + rewrite (bind_raise _ _ _ _ _ (Hget _)). exists out0. reflexivity.
    + destruct (opposite_not_diverge _ _ Hopp).
  - rewrite (bind_raise _ _ _ _ _ (sel_board_get_raise st l Hsel)).
    exists (stdout st). destruct st; reflexivity.
Qed.

(** ** What the bound actions leave alone *)

Lemma keeps_proceed_current_index self : keeps current_index (proceed self).
Proof. unfold proceed, terminate. frame. Qed.
Lemma keeps_proceed_sel_board self : keeps sel_board (proceed self).
Proof. unfold proceed, terminate. frame. Qed.
Lemma keeps_proceed_banned_board self : keeps banned_board (proceed self).
Proof. unfold proceed, terminate. frame. Qed.
Lemma keeps_proceed_stdin self : keeps stdin (proceed self).
Proof. unfold proceed, terminate. frame. Qed.

Lemma keeps_change_focus_sel_board self d : keeps sel_board (change_focus self d).
Proof. unfold change_focus. frame. Qed.
Lemma keeps_change_focus_banned_board self d :
  keeps banned_board (change_focus self d).
Proof. unfold change_focus. frame. Qed.
Lemma keeps_change_focus_terminate self d :
  keeps _terminate (change_focus self d).
Proof. unfold change_focus. frame. Qed.
Lemma keeps_change_focus_stdin self d : keeps stdin (change_focus self d).
Proof. unfold change_focus. frame. Qed.

#[local] Hint Resolve keeps_proceed_current_index keeps_proceed_sel_board
  keeps_proceed_banned_board keeps_proceed_stdin keeps_change_focus_sel_board
  keeps_change_focus_banned_board keeps_change_focus_terminate
  keeps_change_focus_stdin : keeps.

(** The state a block ends in is the state its first command ends in, or
    the state the rest ends in when started there. *)
Lemma bind_post {S A B} (m : SM S A) (k : A -> SM S B) (Q : S -> Prop) st :
  Q (m st).2 -> (forall a, Q (k a (m st).2).2) -> Q (bind m k st).2.
Proof.
  intros Hm Hk. unfold bind. specialize (Hk).
  destruct (m st) as [[a|e|] st']; simpl in *; auto.
Qed.

(** [change_focus] keeps the focus on an item. *)
Lemma change_focus_current_index self d st :
  current_index (change_focus self d st).2 = current_index st \/
  0 <= current_index (change_focus self d st).2 < len_selection self.
Proof.
  unfold change_focus. rewrite bind_get.
  destruct ((0 <=? current_index st + d) &&
            (current_index st + d <? len_selection self)) eqn:Hin;
    cbn [negb]; [|left; reflexivity].
  apply andb_true_iff in Hin as [H1%Z.leb_le H2%Z.ltb_lt].
  apply bind_post.
  { left. apply keeps_logic_current_index, keeps_set_to_unfocused. }
  intros _. right. rewrite bind_modify.
  match goal with |- context [current_index (?m ?s).2] =>
    assert (Hm : keeps current_index m) by frame; rewrite (Hm s) end.
  cbn [current_index with_current_index]. lia.
Qed.

Lemma ban_selection_by_index_flags self i r st :
  let st' := (ban_selection_by_index self i r st).2 in
  current_index st' = current_index st /\
  ((sel_board st' = sel_board st /\ banned_board st' = banned_board st)
   \/ exists li, py_index (selection self) i = Some li /\
        sel_board st' = <[li := false]> (sel_board st) /\
        banned_board st' = <[li := true]> (banned_board st)).
Proof.
  cbv zeta. unfold ban_selection_by_index.
  set (draw := if r then render_text_effect self BANNED (Some i) else ret tt).
  assert (Hd : keeps logic draw) by (unfold draw; frame).
  pose proof (Hd st) as Hl. unfold logic in Hl.
  injection Hl as Hc Hs Hb _ _.
  match goal with |- context [(bind draw ?k st).2] =>
    apply (bind_post draw k (fun st' =>
      current_index st' = current_index st /\
      ((sel_board st' = sel_board st /\ banned_board st' = banned_board st)
       \/ exists li, py_index (selection self) i = Some li /\
            sel_board st' = <[li := false]> (sel_board st) /\
            banned_board st' = <[li := true]> (banned_board st)))) end.
  { split; [exact Hc|left; split; assumption]. }
  intros _. destruct (py_index (selection self) i) as [li|] eqn:Hi.
  - rewrite (getitem_ok _ _ _ Hi), bind_ret. unfold sel_board_set,
      banned_board_set. rewrite bind_modify, bind_ret.
    cbn. split; [exact Hc|]. right. exists li. rewrite Hs, Hb. auto.
  - rewrite (getitem_raise _ _ Hi). simpl.
    split; [exact Hc|left; split; assumption].
Qed.

Lemma unban_selection_by_index_flags self i r st :
  let st' := (unban_selection_by_index self i r st).2 in
  current_index st' = current_index st /\
  sel_board st' = sel_board st /\
  (banned_board st' = banned_board st
   \/ exists li, py_index (selection self) i = Some li /\
        banned_board st' = <[li := false]> (banned_board st)).
Proof.
  cbv zeta. unfold unban_selection_by_index.
  set (draw := if r then render_text_effect self UNFOCUSED (Some i) else ret tt).
  assert (Hd : keeps logic draw) by (unfold draw; frame).
  pose proof (Hd st) as Hl. unfold logic in Hl.
  injection Hl as Hc Hs Hb _ _.
  match goal with |- context [(bind draw ?k st).2] =>
    apply (bind_post draw k (fun st' =>
      current_index st' = current_index st /\
      sel_board st' = sel_board st /\
      (banned_board st' = banned_board st
       \/ exists li, py_index (selection self) i = Some li /\
            banned_board st' = <[li := false]> (banned_board st)))) end.
  { split; [exact Hc|split; [exact Hs|left; exact Hb]]. }
  intros _. destruct (py_index (selection self) i) as [li|] eqn:Hi.
  - rewrite (getitem_ok _ _ _ Hi), bind_ret. unfold banned_board_set.
    cbn. split; [exact Hc|]. split; [exact Hs|].
    right. exists li. rewrite Hb. auto.
  - rewrite (getitem_raise _ _ Hi). simpl.
    split; [exact Hc|split; [exact Hs|left; exact Hb]].
Qed.

(** Handling a key is reading the rest of its escape sequence and calling
    the action bound to it. *)
Lemma session_state_key self st k :
  session_state self st -> session_state self (manage_key_input self k st).2.
Proof.
  intros Hst. unfold manage_key_input.
  destruct (is_ansi_key k).
  - rewrite bind_assoc. unfold read at 1. unfold bind at 1. rewrite bind_ret.
    pose proof (session_read self st 2 Hst) as Hrd. unfold read in Hrd.
    simpl in Hrd.
    destruct (key_events _) as [a|]; [|exact Hrd].
    apply session_call, Hrd.
  - rewrite bind_ret. destruct (key_events k) as [a|]; [|exact Hst].
    apply session_call, Hst.
Qed.

(** ** Invariants of a session *)

Lemma lookup_init_board (l : list string) k :
  (list_to_map ((fun item => (item, false)) <$> l) : gmap string bool) !! k
  = if decide (k ∈ l) then Some false else None.
Proof.
  destruct (decide (k ∈ l)) as [Hin|Hnin].
  - apply elem_of_list_to_map_1'.
    + intros y [x [[= -> ->] _]]%list_elem_of_fmap. reflexivity.
    + apply list_elem_of_fmap. exists k. auto.
  - apply not_elem_of_list_to_map_1.
    rewrite <- list_fmap_compose. intros [x [-> Hx]]%list_elem_of_fmap.
    exact (Hnin Hx).
Qed.

Lemma select_option_effect_current_index self st :
  current_index (select_option_effect self st).2 = current_index st.
Proof.
  unfold select_option_effect. repeat case_match; reflexivity.
Qed.

Lemma select_option_current_index self st :
  current_index (select_option self st).2 = current_index st.
Proof.
  destruct (select_option_effect_correct self st) as [out ->].
  apply select_option_effect_current_index.
Qed.

Lemma call_current_index self a st :
  current_index (call self a st).2 = current_index st \/
  0 <= current_index (call self a st).2 < len_selection self.
Proof.
  destruct a as [d| | |]; unfold call.
  - apply (bind_post _ _ (fun s => current_index s = current_index st \/
        0 <= current_index s < len_selection self)).
    + apply change_focus_current_index.
    + intros _. apply change_focus_current_index.
  - left. apply select_option_current_index.
  - left. assert (H : keeps current_index (proceed self ;; ret (@None string)))
      by frame.
    apply H.
  - left. unfold terminate. reflexivity.
Qed.

Lemma session_focus_ok self st : session_state self st -> focus_ok self st.
Proof.
  unfold focus_ok.
  induction 1 as [input|st out _ IH|st n _ IH|st a _ IH
                 |st i r Hm _ IH|st i r Hm _ IH].
  - simpl. lia.
  - exact IH.
  - exact IH.
  - destruct (call_current_index self a st) as [->|Hin]; [exact IH|lia].
  - destruct (ban_selection_by_index_flags self i r st) as [-> _]. exact IH.
  - destruct (unban_selection_by_index_flags self i r st) as [-> _]. exact IH.
Qed.

Lemma call_boards self a st :
  (sel_board (call self a st).2 = sel_board st /\
   banned_board (call self a st).2 = banned_board st)
  \/ (a = SelectOption /\
      sel_board (call self a st).2 = sel_board (select_option_effect self st).2 /\
      banned_board (call self a st).2 =
        banned_board (select_option_effect self st).2).
Proof.
  destruct a as [d| | |]; unfold call.
  - left. split.
    + assert (H : keeps sel_board (change_focus self d ;; ret (@None string)))
        by frame. apply H.
    + assert (H : keeps banned_board (change_focus self d ;; ret (@None string)))
        by frame. apply H.
  - right. destruct (select_option_effect_correct self st) as [out ->]. auto.
  - left. split.
    + assert (H : keeps sel_board (proceed self ;; ret (@None string)))
        by frame. apply H.
    + assert (H : keeps banned_board (proceed self ;; ret (@None string)))
        by frame. apply H.
  - left. split; reflexivity.
Qed.

(** Case analysis on the labels of updated boards. *)
Ltac board_cases :=
  repeat match goal with
  | H : context [<[_ := _]> _ !! _] |- _ => rewrite lookup_insert in H
  | |- context [<[_ := _]> _ !! _] => rewrite lookup_insert
  end;
  repeat case_decide; subst; try congruence; try (intuition congruence);
  try (eexists; reflexivity).

Lemma select_option_effect_boards_ok self st :
  boards_ok self st -> boards_ok self (select_option_effect self st).2.
Proof.
  intros Hok. unfold select_option_effect.
  repeat case_match; try exact Hok; intros k Hk; destruct (Hok k Hk);
    proj; split; board_cases.
Qed.

Lemma session_boards_ok self st : session_state self st -> boards_ok self st.
Proof.
  induction 1 as [input|st out _ IH|st n _ IH|st a _ IH
                 |st i r Hm _ IH|st i r Hm _ IH].
  - intros k Hk. simpl. rewrite lookup_init_board, decide_True by exact Hk.
    split; eexists; reflexivity.
  - exact IH.
  - exact IH.
  - destruct (call_boards self a st) as [[Hs Hb]|(_ & Hs & Hb)];
      intros k Hk; rewrite Hs, Hb.
    + exact (IH k Hk).
    + exact (select_option_effect_boards_ok self st IH k Hk).
  - destruct (ban_selection_by_index_flags self i r st)
      as [_ [[Hs Hb]|(li & _ & Hs & Hb)]];
      intros k Hk; rewrite Hs, Hb; destruct (IH k Hk); [auto|].
    split; board_cases.
  - destruct (unban_selection_by_index_flags self i r st)
      as (_ & Hs & [Hb|(li & _ & Hb)]);
      intros k Hk; rewrite Hs, Hb; destruct (IH k Hk); [auto|].
    split; board_cases.
Qed.

Lemma select_option_effect_flags_exclusive self st :
  flags_exclusive self st -> flags_exclusive self (select_option_effect self st).2.
Proof.
  intros [Hex Hsingle]. unfold select_option_effect.
  destruct (allow_multiple_selection self) eqn:Hmode; cbn [negb].
  - repeat case_match; try (split; [exact Hex|exact Hsingle]);
      (split; [|intros [=]]); intros k; specialize (Hex k); proj;
      board_cases.
  - specialize (Hsingle eq_refl).
    repeat case_match; try (split; [exact Hex|intros _; exact Hsingle]);
      (split; [|intros _; exact Hsingle]); intros k; specialize (Hsingle k);
      proj; board_cases.
Qed.

Lemma session_flags_exclusive self st :
  session_state self st -> flags_exclusive self st.
Proof.
  induction 1 as [input|st out _ IH|st n _ IH|st a _ IH
                 |st i r Hm _ IH|st i r Hm _ IH].
  - split; [intros k|intros _ k]; simpl; rewrite lookup_init_board;
      case_decide; intuition congruence.
  - exact IH.
  - exact IH.
  - unfold flags_exclusive.
    destruct (call_boards self a st) as [[Hs Hb]|(_ & Hs & Hb)];
      rewrite Hs, Hb.
    + exact IH.
    + exact (select_option_effect_flags_exclusive self st IH).
  - destruct IH as [Hex _]. unfold flags_exclusive.
    destruct (ban_selection_by_index_flags self i r st)
      as [_ [[Hs Hb]|(li & _ & Hs & Hb)]]; rewrite Hs, Hb;
      (split; [|congruence]); [exact Hex|].
    intros k. specialize (Hex k). board_cases.
  - destruct IH as [Hex _]. unfold flags_exclusive.
    destruct (unban_selection_by_index_flags self i r st)
      as (_ & Hs & [Hb|(li & _ & Hb)]); rewrite Hs, Hb;
      (split; [|congruence]); [exact Hex|].
    intros k. specialize (Hex k). board_cases.
Qed.

(** C5.  In every state of a session - after [__init__] and after every
    [change_focus], [select_option], [proceed], [terminate], ban and unban -
    no item has its selected flag and its banned flag both true. *)
Theorem selected_banned_exclusive self st i :
  session_state self st -> ~ (selected self st i /\ banned self st i).
Proof.
  intros Hst [Hs Hb].
  destruct (selected_label self st i Hs) as (l & Hl & Hsl).
  destruct (banned_label self st i Hb) as (l' & Hl' & Hbl).
  assert (l' = l) as -> by congruence.
  destruct (session_flags_exclusive self st Hst) as [Hex _].
  exact (Hex l (conj Hsl Hbl)).
Qed.

Lemma selected_banned_exclusive_witness :
  ~ (selected pair (call pair SelectOption (init pair [])).2 1 /\
     banned pair (call pair SelectOption (init pair [])).2 1).
Proof.
  apply selected_banned_exclusive. apply session_call, session_init.
Defined.

(** ** One iteration of the session loop *)

Lemma mainloop_S T self fuel st (t : terminal T) :
  mainloop T self (S fuel) (st, t) =
  match manage_key_input self (take 1 (stdin st))
          (with_stdin (drop 1 (stdin st)) st) with
  | (Ok last_selection, st') =>
      if _terminate st' then (Ok last_selection, (st', t))
      else mainloop T self fuel (st', t)
  | (Raise e, st') => (Raise e, (st', t))
  | (Diverge, st') => (Diverge, (st', t))
  end.
Proof.
  cbn [mainloop]. unfold lift, read, bind, flush, get, ret. cbn [fst snd].
  destruct (manage_key_input self _ _) as [[last|e|] st']; cbn [fst snd];
    try reflexivity.
  destruct (_terminate st'); reflexivity.
Qed.

(** ** Single-selection mode *)

(** C3.  In single-selection mode the first [select_option] call marks the
    focused item selected, sets the termination flag and returns the label
    the focus was on; the loop of the session driver returns in that very
    iteration, whatever input is left behind the Enter key. *)
Theorem select_option_single_selection self st l :
  allow_multiple_selection self = false ->
  py_index (selection self) (current_index st) = Some l ->
  (select_option self st).1 = Ok (Some l) /\
  selected self (select_option self st).2 (current_index st) /\
  _terminate (select_option self st).2 = true /\
  (forall (T : Type) (t : terminal T) (fuel : nat) (rest : list byte),
     stdin st = x0d :: rest ->
     exists st',
       mainloop T self (S fuel) (st, t) = (Ok (Some l), (st', t)) /\
       stdin st' = rest /\ _terminate st' = true).
Proof.
  intros Hmode Hcur.
  destruct (select_option_single self st l Hmode Hcur) as [out Hsel].
  rewrite Hsel. cbn [fst snd].
  split; [reflexivity|]. split; [|split; [reflexivity|]].
  - apply (selected_iff self _ _ l Hcur). cbn [sel_board].
    apply lookup_insert_eq.
  - intros T t fuel rest Hin. rewrite mainloop_S, Hin.
    change (take 1 (x0d :: rest)) with [x0d].
    change (drop 1 (x0d :: rest)) with rest.
    change (manage_key_input self [x0d]) with (select_option self).
    set (st0 := with_stdin rest st).
    destruct (select_option_single self st0 l Hmode Hcur) as [out' ->].
    cbn [_terminate]. eexists. split; [reflexivity|]. split; reflexivity.
Qed.

Lemma select_option_single_selection_witness :
  (select_option abc (init abc [x0d; "q"%byte])).1 = Ok (Some "A") /\
  selected abc (select_option abc (init abc [x0d; "q"%byte])).2 0 /\
  _terminate (select_option abc (init abc [x0d; "q"%byte])).2 = true /\
  exists st',
    mainloop Z abc 1 (init abc [x0d; "q"%byte], console 0) =
      (Ok (Some "A"), (st', console 0)) /\
    stdin st' = ["q"%byte] /\ _terminate st' = true.
Proof.
  destruct (select_option_single_selection abc (init abc [x0d; "q"%byte]) "A")
    as (Hr & Hs & Ht & Hloop); [reflexivity..|].
  split; [exact Hr|]. split; [exact Hs|]. split; [exact Ht|].
  apply (Hloop Z (console 0) 0%nat ["q"%byte]). reflexivity.
Defined.

(** ** The [n] key *)

(** The claim of C4 fails: in single-selection mode the [n] key is bound to
    [proceed] like in multi-selection mode, and pressing it sets the
    termination flag. *)
Lemma n_key_single_selection_counterexample :
  allow_multiple_selection abc = false /\
  key_events ["n"%byte] = Some Proceed /\
  _terminate (init abc []) = false /\
  _terminate (manage_key_input abc ["n"%byte] (init abc [])).2 = true /\
  manage_key_input abc ["n"%byte] (init abc []) <> (Ok None, init abc []).
Proof.
  split; [reflexivity|]. split; [reflexivity|]. split; [reflexivity|].
  split; [vm_compute; reflexivity|].
  intros H. apply (f_equal (fun r => _terminate r.2)) in H.
  vm_compute in H. discriminate H.
Qed.

Lemma proceed_ok self st l :
  py_index (selection self) (current_index st) = Some l ->
  is_Some (sel_board st !! l) ->
  exists out,
    proceed self st =
    (Ok tt, State (current_index st) (sel_board st) (banned_board st)
                  true out (stdin st)).
Proof.
  intros Hcur [b Hb]. unfold proceed.
  rewrite (bind_ok _ _ _ _ _ (current_label_ok self st l Hcur)).
  rewrite (bind_ok _ _ _ _ _ (sel_board_get_ok st l b Hb)).
  destruct (render_text_effect_ok self (if b then SELECTED else UNFOCUSED)
              None st l Hcur) as [out Hr].
  assert (Hr' : (if b then render_text_effect self SELECTED None
                 else render_text_effect self UNFOCUSED None) st
                = (Ok tt, with_stdout out st)) by (destruct b; exact Hr).
  rewrite (bind_ok _ _ _ _ _ Hr'). exists out. reflexivity.
Qed.

(** C4, amended.  In either mode the [n] key calls [proceed]: with the focus
    on an item, the call returns, sets the termination flag and leaves the
    focus and every selected and banned flag as they were. *)
Theorem n_key_proceeds self st l :
  py_index (selection self) (current_index st) = Some l ->
  is_Some (sel_board st !! l) ->
  key_events ["n"%byte] = Some Proceed /\
  manage_key_input self ["n"%byte] st = (proceed self ;; ret None) st /\
  (manage_key_input self ["n"%byte] st).1 = Ok None /\
  _terminate (manage_key_input self ["n"%byte] st).2 = true /\
  current_index (manage_key_input self ["n"%byte] st).2 = current_index st /\
  sel_board (manage_key_input self ["n"%byte] st).2 = sel_board st /\
  banned_board (manage_key_input self ["n"%byte] st).2 = banned_board st.
Proof.
  intros Hcur Hsome.
  assert (Hkey : manage_key_input self ["n"%byte] st
                 = (proceed self ;; ret None) st) by reflexivity.
  split; [reflexivity|]. split; [exact Hkey|]. rewrite Hkey.
  destruct (proceed_ok self st l Hcur Hsome) as [out Hp].
  rewrite (bind_ok _ _ _ _ _ Hp). repeat split.
Qed.

Lemma n_key_proceeds_witness :
  key_events ["n"%byte] = Some Proceed /\
  manage_key_input abc ["n"%byte] (init abc []) =
    (proceed abc ;; ret None) (init abc []) /\
  (manage_key_input abc ["n"%byte] (init abc [])).1 = Ok None /\
  _terminate (manage_key_input abc ["n"%byte] (init abc [])).2 = true /\
  current_index (manage_key_input abc ["n"%byte] (init abc [])).2 = 0 /\
  sel_board (manage_key_input abc ["n"%byte] (init abc [])).2 =
    sel_board (init abc []) /\
  banned_board (manage_key_input abc ["n"%byte] (init abc [])).2 =
    banned_board (init abc []).
Proof.
  apply (n_key_proceeds abc (init abc []) "A").
  - reflexivity.
  - exists false. vm_compute. reflexivity.
Defined.

(** ** Flags are kept per label *)

(** C9.  Two indices that carry the same label share their flags: reading
    the selected or the banned flag through either index gives the same
    answer in every state, and banning or unbanning through either index
    leaves the same boards. *)
Theorem flags_shared_by_label self i j l st :
  py_index (selection self) i = Some l ->
  py_index (selection self) j = Some l ->
  is_index_selected self i st = is_index_selected self j st /\
  is_index_banned self i st = is_index_banned self j st /\
  (forall lc r, py_index (selection self) (current_index st) = Some lc ->
     (ban_selection_by_index self i r st).1 =
       (ban_selection_by_index self j r st).1 /\
     sel_board (ban_selection_by_index self i r st).2 =
       sel_board (ban_selection_by_index self j r st).2 /\
     banned_board (ban_selection_by_index self i r st).2 =
       banned_board (ban_selection_by_index self j r st).2 /\
     (unban_selection_by_index self i r st).1 =
       (unban_selection_by_index self j r st).1 /\
     sel_board (unban_selection_by_index self i r st).2 =
       sel_board (unban_selection_by_index self j r st).2 /\
     banned_board (unban_selection_by_index self i r st).2 =
       banned_board (unban_selection_by_index self j r st).2).
Proof.
  intros Hi Hj. split; [|split].
  - unfold is_index_selected.
    rewrite (getitem_ok _ _ _ Hi), (getitem_ok _ _ _ Hj). reflexivity.
  - unfold is_index_banned.
    rewrite (getitem_ok _ _ _ Hi), (getitem_ok _ _ _ Hj). reflexivity.
  - intros lc r Hcur.
    destruct (ban_selection_by_index_ok self st i r lc l Hcur Hi) as [o1 ->].
    destruct (ban_selection_by_index_ok self st j r lc l Hcur Hj) as [o2 ->].
    destruct (unban_selection_by_index_ok self st i r lc l Hcur Hi) as [o3 ->].
    destruct (unban_selection_by_index_ok self st j r lc l Hcur Hj) as [o4 ->].
    repeat split.
Qed.

Lemma flags_shared_by_label_witness :
  is_index_selected twins 0 (init twins []) =
    is_index_selected twins 1 (init twins []) /\
  is_index_banned twins 0 (init twins []) =
    is_index_banned twins 1 (init twins []) /\
  sel_board (ban_selection_by_index twins 0 true (init twins [])).2 =
    sel_board (ban_selection_by_index twins 1 true (init twins [])).2 /\
  banned_board (ban_selection_by_index twins 0 true (init twins [])).2 =
    banned_board (ban_selection_by_index twins 1 true (init twins [])).2.
Proof.
  destruct (flags_shared_by_label twins 0 1 "X" (init twins []))
    as (Hs & Hb & Hw); [reflexivity..|].
  destruct (Hw "X" true) as (_ & Hsel & Hban & _); [reflexivity|].
  repeat split; assumption.
Defined.

(** With equal labels the flag of one item follows the other: activating
    the first of two items labelled alike marks the second one selected. *)
Example same_label_selects_both :
  let self := Config ["X"; "X"] 0 true None None true ascending in
  selected self (call self SelectOption (init self [])).2 1.
Proof. vm_compute. reflexivity. Qed.

(** With different labels it does not. *)
Lemma flags_apart_by_label self i j li lj st r :
  py_index (selection self) i = Some li ->
  py_index (selection self) j = Some lj ->
  li <> lj ->
  sel_board (ban_selection_by_index self i r st).2 !! lj = sel_board st !! lj /\
  banned_board (ban_selection_by_index self i r st).2 !! lj =
    banned_board st !! lj.
Proof.
  intros Hi Hj Hne.
  destruct (ban_selection_by_index_flags self i r st)
    as [_ [[-> ->]|(l & Hl & -> & ->)]]; [auto|].
  assert (l = li) as -> by congruence.
  rewrite !lookup_insert_ne by exact Hne. auto.
Qed.

(** ** Toggling one item *)

(** The claim of C6 fails when the mutex partner carries the label of the
    focused item: one activation of item 0 of [twins] leaves it unselected
    and banned. *)
Lemma activate_parity_counterexample :
  allow_multiple_selection twins = true /\
  current_index (init twins []) = 0 /\
  ~ selected twins (init twins []) 0 /\
  Nat.odd 1 = true /\
  ~ selected twins (activate_n twins 1 (init twins [])).2 0 /\
  banned twins (activate_n twins 1 (init twins [])).2 0.
Proof.
  repeat split; try (vm_compute; reflexivity);
    intros H; vm_compute in H; discriminate H.
Qed.

Lemma activate_n_spec self cur l :
  allow_multiple_selection self = true ->
  py_index (selection self) cur = Some l ->
  partner_apart self cur l ->
  forall n st b,
    current_index st = cur ->
    boards_ok self st ->
    sel_board st !! l = Some b ->
    (activate_n self n st).1 = Ok None /\
    current_index (activate_n self n st).2 = cur /\
    boards_ok self (activate_n self n st).2 /\
    sel_board (activate_n self n st).2 !! l = Some (xorb b (Nat.odd n)) /\
    (((0 < n)%nat /\ b = false) \/ banned_board st !! l = Some false ->
     banned_board (activate_n self n st).2 !! l = Some false).
Proof.
  intros Hmode Hl Hpart. induction n as [|n IH]; intros st b Hcur Hok Hb.
  - cbn [activate_n]. unfold ret. cbn [fst snd]. rewrite xorb_false_r.
    split; [reflexivity|]. split; [exact Hcur|]. split; [exact Hok|].
    split; [exact Hb|]. intros [[Hn _]|Hn]; [lia|exact Hn].
  - cbn [activate_n].
    destruct (select_option_effect_correct self st) as [out Hsel].
    pose proof (select_option_effect_boards_ok self st Hok) as Hok'.
    pose proof (select_option_effect_current_index self st) as Hcur'.
    assert (Heff : (select_option_effect self st).1 = Ok None /\
              sel_board (select_option_effect self st).2 !! l = Some (negb b) /\
              (b = false ->
               banned_board (select_option_effect self st).2 !! l = Some false) /\
              (b = true ->
               banned_board (select_option_effect self st).2 !! l =
               banned_board st !! l)).
    { unfold select_option_effect, partner_apart in *.
      rewrite Hcur, Hl, Hmode, Hb. cbn [negb].
      destruct (opposite self cur) as [[p|]|e|]; try contradiction.
      - destruct Hpart as (lp & Hp & Hne). rewrite Hp.
        destruct b.
        + destruct (Hok lp (py_index_elem_of _ _ _ Hp)) as [_ [bp Hbp]].
          rewrite Hbp. destruct bp; proj; repeat split; intros; board_cases.
        + proj. repeat split; intros; board_cases.
      - destruct b; proj; repeat split; intros; board_cases. }
    destruct Heff as (Hr & Hs & Hbf & Hbt).
    rewrite Hr in Hsel. rewrite (bind_ok _ _ _ _ _ Hsel).
    set (st1 := with_stdout out (select_option_effect self st).2) in *.
    destruct (IH st1 (negb b)) as (Hr1 & Hc1 & Hok1 & Hs1 & Hb1).
    { unfold st1. proj. congruence. }
    { exact Hok'. }
    { exact Hs. }
    split; [exact Hr1|]. split; [exact Hc1|]. split; [exact Hok1|]. split.
    + rewrite Hs1. f_equal. rewrite Nat.odd_succ, <- Nat.negb_odd.
      destruct b, (Nat.odd n); reflexivity.
    + intros Hpre. apply Hb1. right. unfold st1. proj.
      destruct b.
      * rewrite Hbt by reflexivity. destruct Hpre as [[_ [=]]|H]. exact H.
      * apply Hbf. reflexivity.
Qed.

(** In a set of more than two items the partner, and with it the outcome
    of an activation, depends on the order in which the interpreter
    iterates the set: with items 0 and 1 labelled alike, activating item 0
    of [trio] leaves it unselected and banned when the partner found is
    item 1, selected and not banned when it is item 2. *)
Example activate_depends_on_order :
  opposite (trio ascending) 0 = Ok (Some 1) /\
  ~ selected (trio ascending)
      (activate_n (trio ascending) 1 (init (trio ascending) [])).2 0 /\
  banned (trio ascending)
    (activate_n (trio ascending) 1 (init (trio ascending) [])).2 0 /\
  opposite (trio descending) 0 = Ok (Some 2) /\
  selected (trio descending)
    (activate_n (trio descending) 1 (init (trio descending) [])).2 0 /\
  ~ banned (trio descending)
      (activate_n (trio descending) 1 (init (trio descending) [])).2 0.
Proof.
  repeat split; try (vm_compute; reflexivity);
    intros H; vm_compute in H; discriminate H.
Qed.

(** C6, amended.  In multi-selection mode, take an item that is unselected
    and for which [get_opposite_mutex_index], in the order in which the
    interpreter iterates the mutex group, finds no partner or an item under
    another label.  Then [n] consecutive [select_option] calls with the
    focus on that item all return, leave its selected flag true exactly
    when [n] is odd, and, once the first call is made, leave its banned
    flag false. *)
Theorem activate_n_parity self st l n :
  allow_multiple_selection self = true ->
  boards_ok self st ->
  py_index (selection self) (current_index st) = Some l ->
  is_index_selected self (current_index st) st = (Ok false, st) ->
  partner_apart self (current_index st) l ->
  (activate_n self n st).1 = Ok None /\
  (is_index_selected self (current_index st) (activate_n self n st).2).1 =
    Ok (Nat.odd n) /\
  ((0 < n)%nat ->
   (is_index_banned self (current_index st) (activate_n self n st).2).1 =
     Ok false).
Proof.
  intros Hmode Hok Hl Hsel Hpart.
  assert (Hb : sel_board st !! l = Some false).
  { destruct (Hok l (py_index_elem_of _ _ _ Hl)) as [[b Hb] _].
    rewrite (is_index_selected_ok self st _ l b Hl Hb) in Hsel. congruence. }
  destruct (activate_n_spec self (current_index st) l Hmode Hl Hpart n st false
              eq_refl Hok Hb) as (Hr & _ & _ & Hs & Hbn).
  split; [exact Hr|]. split.
  - rewrite (is_index_selected_ok self _ _ l _ Hl Hs). reflexivity.
  - intros Hn.
    rewrite (is_index_banned_ok self _ _ l false Hl); [reflexivity|].
    apply Hbn. left. auto.
Qed.

Lemma activate_n_parity_witness :
  (activate_n pair 3 (init pair [])).1 = Ok None /\
  (is_index_selected pair 0 (activate_n pair 3 (init pair [])).2).1 = Ok true /\
  ((0 < 3)%nat ->
   (is_index_banned pair 0 (activate_n pair 3 (init pair [])).2).1 = Ok false).
Proof.
  apply (activate_n_parity pair (init pair []) "A" 3).
  - reflexivity.
  - apply session_boards_ok, session_init.
  - reflexivity.
  - vm_compute. reflexivity.
  - unfold partner_apart. vm_compute. exists "B". split; [reflexivity|].
    intros [=].
Defined.

(** ** Mutex pairs *)

(** The claim of C2 fails when the two items of a pair carry the same
    label: in [twins] the first activation of item 0 leaves item 0
    unselected, so the second activation selects again instead of
    deselecting, and item 1 is still banned after it. *)
Lemma mutex_pair_unban_counterexample :
  mutex_pair twins 0 1 /\
  allow_multiple_selection twins = true /\
  current_index (init twins []) = 0 /\
  ~ selected twins (init twins []) 0 /\
  banned twins (activate_n twins 1 (init twins [])).2 1 /\
  banned twins (activate_n twins 2 (init twins [])).2 1.
Proof.
  split.
  { exists {[ {[0; 1]} ]}. split; [reflexivity|].
    split; [apply elem_of_singleton; reflexivity|lia]. }
  repeat split; try (vm_compute; reflexivity).
  intros H; vm_compute in H; discriminate H.
Qed.

(** A third item under the label of one of the pair breaks the exclusion
    itself: in [echo], select item 1, move to item 2 and select it; items
    0 and 1 of the pair are then both selected. *)
Example shared_label_selects_pair :
  let keys := ["j"%byte; x0d; "j"%byte; x0d] in
  let st := (run Z raw_of cbreak_of echo (init echo keys, console 0)).2.1 in
  mutex_pair echo 0 1 /\ selected echo st 0 /\ selected echo st 1.
Proof.
  split.
  { exists {[ {[0; 1]} ]}. split; [reflexivity|].
    split; [apply elem_of_singleton; reflexivity|lia]. }
  split; vm_compute; reflexivity.
Qed.

Lemma py_index_nonneg {T} (l : list T) i x :
  0 <= i -> py_index l i = Some x ->
  i < Z.of_nat (length l) /\ l !! Z.to_nat i = Some x.
Proof.
  intros Hi. unfold py_index.
  destruct (Z.leb_spec 0 i); [|lia].
  destruct (Z.ltb_spec i (Z.of_nat (length l))); cbn [andb].
  - auto.
  - destruct (Z.ltb_spec i 0); [lia|]. rewrite andb_false_r. discriminate.
Qed.

Lemma py_index_inj {T} (l : list T) i j x :
  NoDup l -> 0 <= i -> 0 <= j ->
  py_index l i = Some x -> py_index l j = Some x -> i = j.
Proof.
  intros Hnd Hi Hj [_ Hli]%py_index_nonneg [_ Hlj]%py_index_nonneg; try lia.
  pose proof (NoDup_lookup l _ _ x Hnd Hli Hlj). lia.
Qed.

Lemma mutex_pair_sym self a b : mutex_pair self a b -> mutex_pair self b a.
Proof.
  intros (g & Hg & Hin & Hne). exists g. split; [exact Hg|].
  split; [|congruence].
  replace ({[b; a]} : gset Z) with ({[a; b]} : gset Z); [exact Hin|].
  apply set_eq. intros x. rewrite !elem_of_union, !elem_of_singleton. tauto.
Qed.

Lemma mutex_scan_unique self a (s0 : gset Z) (l : list (gset Z)) st :
  s0 ∈ l -> a ∈ s0 ->
  (forall s : gset Z, s ∈ l -> a ∈ s -> s = s0) ->
  mutex_scan self a l st =
  match iter_difference (set_order self) s0 a with
  | j :: _ => (Ok (Some j), st)
  | [] => (Raise StopIteration, st)
  end.
Proof.
  intros Hin Ha Huniq. induction l as [|s l IH]; [inversion Hin|].
  cbn [mutex_scan]. destruct (bool_decide (a ∈ s)) eqn:Hd.
  - apply bool_decide_eq_true in Hd.
    rewrite (Huniq s) by (left || exact Hd).
    destruct (iter_difference (set_order self) s0 a); reflexivity.
  - apply bool_decide_eq_false in Hd. apply IH.
    + apply elem_of_cons in Hin as [->|Hin]; [contradiction|exact Hin].
    + intros s' Hs'. apply Huniq. right. exact Hs'.
Qed.

(** Of a pair, the set without one member is iterated in one way only. *)
Lemma iter_difference_pair (order : set_iteration) (a b : Z) :
  a <> b -> iter_difference order {[a; b]} a = [b].
Proof.
  intros Hne. apply Permutation_singleton_r.
  rewrite (iter_difference_members order {[a; b]} a).
  replace (({[a; b]} : gset Z) ∖ {[a]}) with ({[b]} : gset Z).
  - rewrite elements_singleton. reflexivity.
  - apply set_eq. intros x.
    rewrite elem_of_difference, elem_of_union, !elem_of_singleton.
    split; [intros ->; split; [right; reflexivity|congruence]|].
    intros [[->| ->] Hx]; [contradiction|reflexivity].
Qed.

Lemma opposite_pair self a b :
  wf_mutex_group self -> mutex_pair self a b -> opposite self a = Ok (Some b).
Proof.
  intros Hwf (g & Hg & Hin & Hne). destruct (Hwf g Hg) as [Huniq _].
  unfold opposite, get_opposite_mutex_index. rewrite Hg.
  assert (Ha : a ∈ ({[a; b]} : gset Z)).
  { apply elem_of_union. left. apply elem_of_singleton. reflexivity. }
  rewrite (mutex_scan_unique self a {[a; b]}).
  - rewrite (iter_difference_pair _ a b Hne). reflexivity.
  - apply elem_of_iter_sets, Hin.
  - exact Ha.
  - intros s Hs Has. apply (Huniq s {[a; b]} a); auto.
    apply elem_of_iter_sets in Hs. exact Hs.
Qed.

Lemma mutex_pair_range self a b :
  wf_mutex_group self -> mutex_pair self a b ->
  0 <= a < len_selection self /\ 0 <= b < len_selection self.
Proof.
  intros Hwf (g & Hg & Hin & Hne). destruct (Hwf g Hg) as [_ Hrange].
  split; apply (Hrange {[a; b]}); try exact Hin;
    apply elem_of_union; [left|right]; apply elem_of_singleton; reflexivity.
Qed.

Lemma mutex_pair_labels self a b :
  NoDup (selection self) -> wf_mutex_group self -> mutex_pair self a b ->
  exists la lb,
    py_index (selection self) a = Some la /\
    py_index (selection self) b = Some lb /\ la <> lb.
Proof.
  intros Hnd Hwf Hp. destruct (mutex_pair_range self a b Hwf Hp) as [Ha Hb].
  destruct (is_index_valid_label self a) as [la Hla];
    [apply is_index_valid_spec, Ha|].
  destruct (is_index_valid_label self b) as [lb Hlb];
    [apply is_index_valid_spec, Hb|].
  exists la, lb. split; [exact Hla|]. split; [exact Hlb|].
  intros ->. destruct Hp as (_ & _ & _ & Hne). apply Hne.
  apply (py_index_inj (selection self) a b lb Hnd); lia || assumption.
Qed.

Lemma select_option_effect_pairs_exclusive self st :
  allow_multiple_selection self = true ->
  NoDup (selection self) -> wf_mutex_group self ->
  focus_ok self st ->
  pairs_exclusive self st ->
  pairs_exclusive self (select_option_effect self st).2.
Proof.
  intros Hmode Hnd Hwf [Hfocus _] Hex a b la lb Hp Hla Hlb.
  specialize (Hex a b la lb Hp Hla Hlb).
  destruct (mutex_pair_range self a b Hwf Hp) as [Hra Hrb].
  pose proof (opposite_pair self a b Hwf Hp) as Hoa.
  pose proof (opposite_pair self b a Hwf (mutex_pair_sym _ _ _ Hp)) as Hob.
  unfold select_option_effect. rewrite Hmode. cbn [negb].
  destruct (py_index (selection self) (current_index st)) as [l|] eqn:Hcur;
    [|exact Hex].
  assert (Hca : l = la -> current_index st = a).
  { intros ->. apply (py_index_inj (selection self) _ _ la Hnd); lia || assumption. }
  assert (Hcb : l = lb -> current_index st = b).
  { intros ->. apply (py_index_inj (selection self) _ _ lb Hnd); lia || assumption. }
  destruct (sel_board st !! l) as [[|]|] eqn:Hsel; [| |exact Hex].
  - (* unselecting only clears flags *)
    assert (Hclear : ~ (<[l := false]> (sel_board st) !! la = Some true /\
                     <[l := false]> (sel_board st) !! lb = Some true))
      by board_cases.
    repeat case_match; exact Hclear.
  - destruct (decide (l = la)) as [Hl|Hl].
    { rewrite (Hca Hl), Hoa, Hlb. subst l. proj. board_cases. }
    destruct (decide (l = lb)) as [Hl'|Hl'].
    { rewrite (Hcb Hl'), Hob, Hla. subst l. proj. board_cases. }
    repeat case_match; proj; board_cases.
Qed.

Lemma session_pairs_exclusive self st :
  allow_multiple_selection self = true ->
  NoDup (selection self) -> wf_mutex_group self ->
  session_state self st -> pairs_exclusive self st.
Proof.
  intros Hmode Hnd Hwf.
  induction 1 as [input|st out _ IH|st n _ IH|st a Hst IH
                 |st i r Hm _ IH|st i r Hm _ IH].
  - intros a b la lb _ _ _ [H _]. simpl in H.
    rewrite lookup_init_board in H. case_decide; discriminate.
  - exact IH.
  - exact IH.
  - unfold pairs_exclusive.
    destruct (call_boards self a st) as [[Hs _]|(_ & Hs & _)]; rewrite Hs.
    + exact IH.
    + apply select_option_effect_pairs_exclusive; auto.
      apply session_focus_ok, Hst.
  - unfold pairs_exclusive.
    destruct (ban_selection_by_index_flags self i r st)
      as [_ [[Hs _]|(li & _ & Hs & _)]]; rewrite Hs; [exact IH|].
    intros a b la lb Hp Hla Hlb. specialize (IH a b la lb Hp Hla Hlb).
    board_cases.
  - unfold pairs_exclusive.
    destruct (unban_selection_by_index_flags self i r st) as (_ & Hs & _).
    rewrite Hs. exact IH.
Qed.

(** C2, amended.  In a multi-selection session whose labels are pairwise
    distinct and whose mutex group is as the data model wants it, take a
    pair [{a, b}] and a state with the focus on [a].  Activating [a] while
    it is unselected returns, selects [a], bans [b] and leaves [b]
    unselected; activating [a] while it is selected returns, unselects [a]
    and leaves [b] unbanned.  And in no state of the session are [a] and
    [b] both selected. *)
Theorem mutex_pair_exclusion self a b :
  allow_multiple_selection self = true ->
  NoDup (selection self) ->
  wf_mutex_group self ->
  mutex_pair self a b ->
  (forall st, session_state self st -> current_index st = a ->
     (~ selected self st a ->
      (select_option self st).1 = Ok None /\
      selected self (select_option self st).2 a /\
      banned self (select_option self st).2 b /\
      ~ selected self (select_option self st).2 b) /\
     (selected self st a ->
      (select_option self st).1 = Ok None /\
      ~ selected self (select_option self st).2 a /\
      ~ banned self (select_option self st).2 b)) /\
  (forall st, session_state self st ->
     ~ (selected self st a /\ selected self st b)).
Proof.
  intros Hmode Hnd Hwf Hp.
  destruct (mutex_pair_labels self a b Hnd Hwf Hp) as (la & lb & Hla & Hlb & Hne).
  pose proof (opposite_pair self a b Hwf Hp) as Hopp.
  split.
  - intros st Hst Hcur.
    destruct (session_boards_ok self st Hst la (py_index_elem_of _ _ _ Hla))
      as [[sa Hsa] _].
    destruct (session_boards_ok self st Hst lb (py_index_elem_of _ _ _ Hlb))
      as [_ [bb Hbb]].
    destruct (select_option_effect_correct self st) as [out ->].
    cbn [fst snd].
    rewrite !(selected_iff self _ a la Hla), !(selected_iff self _ b lb Hlb),
      !(banned_iff self _ b lb Hlb).
    unfold select_option_effect.
    rewrite Hcur, Hla, Hmode, Hsa, Hopp, Hlb, Hbb. cbn [negb].
    split; intros Hsel.
    + destruct sa; [contradiction (Hsel eq_refl)|]. proj.
      repeat split; board_cases.
    + destruct sa; [|discriminate Hsel].
      destruct bb; proj; repeat split; board_cases.
  - intros st Hst [[la' [Hla' Hsa]]%selected_label [lb' [Hlb' Hsb]]%selected_label].
    assert (la' = la) as -> by congruence.
    assert (lb' = lb) as -> by congruence.
    exact (session_pairs_exclusive self st Hmode Hnd Hwf Hst a b la lb Hp Hla Hlb
             (conj Hsa Hsb)).
Qed.

Lemma mutex_pair_exclusion_witness :
  let st0 := init pair [] in
  let st1 := (select_option pair st0).2 in
  let st2 := (select_option pair st1).2 in
  ((select_option pair st0).1 = Ok None /\
   selected pair st1 0 /\ banned pair st1 1 /\ ~ selected pair st1 1) /\
  ((select_option pair st1).1 = Ok None /\
   ~ selected pair st2 0 /\ ~ banned pair st2 1) /\
  ~ (selected pair st1 0 /\ selected pair st1 1).
Proof.
  intros st0 st1 st2.
  destruct (mutex_pair_exclusion pair 0 1) as [Hact Hexcl].
  - reflexivity.
  - apply NoDup_cons. split.
    + intros [=]%list_elem_of_singleton.
    + apply NoDup_singleton.
  - intros g [= <-]. split.
    + intros s1 s2 i ->%elem_of_singleton ->%elem_of_singleton _ _.
      reflexivity.
    + intros s i ->%elem_of_singleton [->%elem_of_singleton
        | ->%elem_of_singleton]%elem_of_union; vm_compute; split; congruence.
  - exists {[ {[0; 1]} ]}. split; [reflexivity|].
    split; [apply elem_of_singleton; reflexivity|lia].
  - assert (Hst0 : session_state pair st0) by apply session_init.
    assert (Hst1 : session_state pair st1)
      by apply (session_call pair st0 SelectOption Hst0).
    split; [|split].
    + apply (Hact st0 Hst0 eq_refl).
      intros H. vm_compute in H. discriminate H.
    + apply (Hact st1 Hst1 eq_refl). vm_compute. reflexivity.
    + apply (Hexcl st1 Hst1).
Defined.

(** * The session driver *)

Section SessionFacts.
Context {T : Type} (tty_setraw tty_setcbreak : T -> T) (self : config).

Lemma keeps_lift_terminal {A} (m : M A) : keeps snd (lift T m).
Proof. intros p. unfold lift. destruct (m p.1). reflexivity. Qed.

Lemma returns_lift {A} (m : M A) : returns m -> returns (lift T m).
Proof.
  intros Hm p. unfold lift. destruct (Hm p.1) as [a Ha].
  destruct (m p.1) as [r st']. simpl in *. eauto.
Qed.

Lemma lift_state {A} (m : M A) p : (lift T m p).2.1 = (m p.1).2.
Proof. unfold lift. destruct (m p.1). reflexivity. Qed.

Lemma keeps_mainloop_terminal fuel : keeps snd (mainloop T self fuel).
Proof.
  induction fuel as [|fuel IH]; intros [st t]; [reflexivity|].
  rewrite mainloop_S.
  destruct (manage_key_input self _ _) as [[last|e|] st']; try reflexivity.
  destruct (_terminate st'); [reflexivity|]. exact (IH (st', t)).
Qed.

(** A command that returns and leaves the terminal alone. *)
Lemma quiet_spec {A} (m : SM (process T) A) p :
  returns m -> keeps snd m -> exists a st', m p = (Ok a, (st', p.2)).
Proof.
  intros Hr Hk. destruct (Hr p) as [a Ha]. specialize (Hk p).
  destruct (m p) as [r [st' t']]. simpl in *. subst. eauto.
Qed.

End SessionFacts.

#[local] Hint Resolve keeps_lift_terminal keeps_mainloop_terminal : keeps.
#[local] Hint Resolve returns_lift : returns.

(** C8.  Whenever [selman_mainstream] ends - the loop was left after an
    activation, [proceed] or [terminate], or an exception was raised inside
    the [try] block - [termios.tcsetattr] has been called exactly once more,
    with the attributes [termios.tcgetattr] returned at the start, which are
    the attributes of the terminal again.  A session that never ends makes
    no such call. *)
Theorem terminal_mode_restored (T : Type) (tty_setraw tty_setcbreak : T -> T)
    (self : config) (p : process T) :
  match (selman_mainstream T tty_setraw tty_setcbreak self p).1 with
  | Diverge =>
      tcsetattr_calls T
        (selman_mainstream T tty_setraw tty_setcbreak self p).2.2 =
      tcsetattr_calls T p.2
  | Ok _ | Raise _ =>
      tcsetattr_calls T
        (selman_mainstream T tty_setraw tty_setcbreak self p).2.2 =
      (tcsetattr_calls T p.2 ++ [tty_attr T p.2])%list /\
      tty_attr T (selman_mainstream T tty_setraw tty_setcbreak self p).2.2 =
      tty_attr T p.2
  end.
Proof.
  unfold selman_mainstream, tcgetattr. rewrite bind_get.
  set (old := tty_attr T p.2).
  match goal with |- context [try_finally ?b ?f] =>
    set (body := b); set (fin := f) end.
  (* the [try] block leaves the calls of [tcsetattr] as they were *)
  assert (Hbody : tcsetattr_calls T (body p).2.2 = tcsetattr_calls T p.2).
  { unfold body, setraw, setcbreak. rewrite !bind_modify. cbv beta.
    match goal with |- context [(?m ?q).2.2] =>
      assert (Hk : keeps snd m) by frame;
      exact (f_equal (tcsetattr_calls T) (Hk q)) end. }
  (* the [finally] suite returns and restores the attributes *)
  assert (Hfin : forall q, exists st',
    fin q = (Ok tt, (st', Terminal T old (tcsetattr_calls T q.2 ++ [old])))).
  { intros q. unfold fin.
    match goal with |- context [bind ?m _ q] =>
      destruct (quiet_spec m q) as (? & st1 & H1); [frame|frame|] end.
    rewrite (bind_ok _ _ _ _ _ H1). clear H1. cbv beta.
    match goal with |- context [bind ?m _ ?q'] =>
      destruct (quiet_spec m q') as (cur & st2 & H2); [frame|frame|] end.
    rewrite (bind_ok _ _ _ _ _ H2). clear H2. cbv beta zeta.
    match goal with |- context [bind ?m _ ?q'] =>
      destruct (quiet_spec m q') as (? & st3 & H3); [frame|frame|] end.
    rewrite (bind_ok _ _ _ _ _ H3). clear H3. cbv beta.
    unfold tcsetattr. rewrite bind_modify. cbv beta.
    cbn [fst snd tcsetattr_calls].
    match goal with |- context [?m ?q'] =>
      match type of m with SM _ _ =>
        destruct (quiet_spec m q') as ([] & st4 & H4); [frame|frame|] end end.
    rewrite H4. exists st4. reflexivity. }
  destruct (body p) as [rb pb] eqn:Hb. cbn [fst snd] in Hbody.
  destruct (Hfin pb) as [st' Hf]. rewrite Hbody in Hf.
  destruct rb as [v|e|].
  - assert (Htf : try_finally body fin p =
      (Ok v, (st', Terminal T old (tcsetattr_calls T p.2 ++ [old]))))
      by (unfold try_finally; rewrite Hb, Hf; reflexivity).
    rewrite (bind_ok _ _ _ _ _ Htf).
    destruct (allow_multiple_selection self); cbn; auto.
  - assert (Htf : try_finally body fin p =
      (Raise e, (st', Terminal T old (tcsetattr_calls T p.2 ++ [old]))))
      by (unfold try_finally; rewrite Hb, Hf; reflexivity).
    rewrite (bind_raise _ _ _ _ _ Htf). cbn. auto.
  - assert (Htf : try_finally body fin p = (Diverge, pb))
      by (unfold try_finally; rewrite Hb; reflexivity).
    rewrite (bind_diverge _ _ _ _ Htf). exact Hbody.
Qed.

(** The exits of a session, one by one, on a terminal whose attributes are
    [7]: Enter in single-selection mode, [n], [q], Ctrl-C, and an
    [IndexError] raised in the loop by a mutex partner that is no item.
    Each time [tcsetattr] is called once, with [7].  Without a key that
    ends it the session goes on and [tcsetattr] is not called. *)
Example restore_on_every_exit :
  let session self keys :=
    selman_mainstream Z raw_of cbreak_of self (init self keys, console 7) in
  let stray :=
    Config ["A"; "B"] 0 true (Some {[ {[0; 5]} ]}) None true ascending in
  Forall (fun r => tcsetattr_calls Z r.2.2 = [7] /\ tty_attr Z r.2.2 = 7)
    [ session abc [x0d];
      session pair ["n"%byte];
      session pair ["j"%byte; "q"%byte];
      session abc [x03];
      session stray [x0d] ] /\
  (session stray [x0d]).1 = Raise IndexError /\
  (session pair ["j"%byte]).1 = Diverge /\
  tcsetattr_calls Z (session pair ["j"%byte]).2.2 = [].
Proof.
  cbv zeta. split; [|repeat split; vm_compute; reflexivity].
  repeat (apply Forall_cons; split; [split; vm_compute; reflexivity|]).
  apply Forall_nil. exact I.
Qed.

(** ** The loop decides with the fuel it is given *)

Lemma select_option_stdin self st : stdin (select_option self st).2 = stdin st.
Proof.
  destruct (select_option_effect_correct self st) as [out ->].
  unfold select_option_effect. repeat case_match; reflexivity.
Qed.

Lemma keeps_call_stdin self a : keeps stdin (call self a).
Proof.
  destruct a; unfold call; [frame| |frame|unfold terminate; frame].
  intros st. apply select_option_stdin.
Qed.

Lemma manage_key_input_stdin self k st :
  (length (stdin (manage_key_input self k st).2) <= length (stdin st))%nat.
Proof.
  unfold manage_key_input.
  destruct (is_ansi_key k).
  - rewrite bind_assoc. unfold read at 1. unfold bind at 1. rewrite bind_ret.
    destruct (key_events _) as [a|].
    + rewrite keeps_call_stdin. cbn [stdin with_stdin].
      rewrite length_drop. lia.
    + cbn [ret snd stdin with_stdin]. rewrite length_drop. lia.
  - rewrite bind_ret. destruct (key_events k) as [a|].
    + rewrite keeps_call_stdin. lia.
    + cbn. lia.
Qed.

Section Fuel.
Context {T : Type} (self : config).

(** At the end of the input the loop reads nothing, calls nothing and goes
    round again. *)
Lemma mainloop_eof fuel st (t : terminal T) :
  stdin st = [] -> _terminate st = false ->
  mainloop T self fuel (st, t) = (Diverge, (st, t)).
Proof.
  intros Hin Hterm. induction fuel as [|fuel IH]; [reflexivity|].
  rewrite mainloop_S, Hin.
  change (manage_key_input self (take 1 []) (with_stdin (drop 1 []) st))
    with (@Ok (option string) None, with_stdin [] st).
  assert (with_stdin [] st = st) as -> by (destruct st; cbn in Hin |- *; subst; reflexivity).
  rewrite Hterm. exact IH.
Qed.

Lemma mainloop_fuel_enough fuel (p : process T) :
  (length (stdin p.1) < fuel)%nat ->
  mainloop T self (S fuel) p = mainloop T self fuel p.
Proof.
  revert p. induction fuel as [|fuel IH]; intros [st t] Hlen; [cbn in Hlen; lia|].
  cbn [fst] in Hlen.
  rewrite (mainloop_S T self (S fuel)), (mainloop_S T self fuel).
  destruct (stdin st) as [|b rest] eqn:Hin.
  - change (manage_key_input self (take 1 []) (with_stdin (drop 1 []) st))
      with (@Ok (option string) None, with_stdin [] st).
    assert (with_stdin [] st = st) as -> by (destruct st; cbn in Hin |- *; subst; reflexivity).
    destruct (_terminate st) eqn:Hterm; [reflexivity|].
    rewrite !mainloop_eof by assumption. reflexivity.
  - pose proof (manage_key_input_stdin self (take 1 (b :: rest))
                  (with_stdin (drop 1 (b :: rest)) st)) as Hle.
    destruct (manage_key_input self _ _) as [[last|e|] st']; try reflexivity.
    destruct (_terminate st'); [reflexivity|].
    apply IH. cbn in Hle, Hlen |- *. rewrite drop_0 in Hle. lia.
Qed.

(** More fuel than [enough_fuel] changes nothing. *)
Lemma mainloop_enough_fuel k (p : process T) :
  mainloop T self (enough_fuel T p + k) p = mainloop T self (enough_fuel T p) p.
Proof.
  induction k as [|k IH]; [rewrite Nat.add_0_r; reflexivity|].
  rewrite Nat.add_succ_r, mainloop_fuel_enough; [exact IH|].
  unfold enough_fuel. lia.
Qed.

End Fuel.

(** ** What the entry point returns *)

Lemma yields_none_bind {S A B} (m : SM S A) (k : A -> SM S (option B)) :
  (forall a, yields_none (k a)) -> yields_none (bind m k).
Proof.
  intros Hk st v. unfold bind.
  destruct (m st) as [[a|e|] st']; cbn; try discriminate. apply Hk.
Qed.

Lemma yields_none_ret {S A} : yields_none (@ret S (option A) None).
Proof. intros st v [= <-]. reflexivity. Qed.

Lemma yields_none_select_option self :
  allow_multiple_selection self = true -> yields_none (select_option self).
Proof.
  intros Hmode st v. destruct (select_option_effect_correct self st) as [out ->].
  cbn [fst]. unfold select_option_effect. rewrite Hmode. cbn [negb].
  repeat case_match; cbn; congruence.
Qed.

Lemma yields_none_manage_key_input self k :
  allow_multiple_selection self = true ->
  yields_none (manage_key_input self k).
Proof.
  intros Hmode. unfold manage_key_input. apply yields_none_bind. intros k'.
  destruct (key_events k') as [[d| | |]|]; unfold call;
    try (apply yields_none_bind; intros _); try apply yields_none_ret.
  apply yields_none_select_option, Hmode.
Qed.

Lemma yields_none_mainloop T self fuel :
  allow_multiple_selection self = true -> yields_none (mainloop T self fuel).
Proof.
  intros Hmode. induction fuel as [|fuel IH]; intros [st t] v;
    [discriminate|].
  rewrite mainloop_S.
  pose proof (yields_none_manage_key_input self (take 1 (stdin st)) Hmode
                (with_stdin (drop 1 (stdin st)) st)) as Hk.
  destruct (manage_key_input self _ _) as [[last|e|] st']; try discriminate.
  destruct (_terminate st'); [|apply IH].
  intros [= <-]. apply Hk. reflexivity.
Qed.

Lemma yields_none_bind_ret {S A} (m : SM S (option A)) :
  yields_none m -> yields_none (let* x := m in ret x).
Proof.
  intros Hm st v. specialize (Hm st). unfold bind.
  destruct (m st) as [[a|e|] st']; cbn in *; try discriminate.
  intros [= <-]. apply Hm. reflexivity.
Qed.

Lemma yields_none_try_finally {S A} (body : SM S (option A)) (fin : SM S unit) :
  yields_none body -> yields_none (try_finally body fin).
Proof.
  intros Hb st v. specialize (Hb st). unfold try_finally.
  destruct (body st) as [[a|e|] st']; cbn in *; try discriminate;
    destruct (fin st') as [[[]|e'|] st'']; cbn; try discriminate.
  intros [= <-]. apply Hb. reflexivity.
Qed.

(** In neither mode does the entry point return a label. *)
Lemma run_yields_none T tty_setraw tty_setcbreak self :
  yields_none (run T tty_setraw tty_setcbreak self).
Proof.
  unfold run, selman_mainstream.
  apply yields_none_bind. intros _. apply yields_none_bind. intros old.
  destruct (allow_multiple_selection self) eqn:Hmode.
  - apply yields_none_bind_ret, yields_none_try_finally.
    repeat (apply yields_none_bind; intros ?).
    apply yields_none_mainloop, Hmode.
  - apply yields_none_bind. intros _. apply yields_none_ret.
Qed.

(** C1, at the failing input.  [Selman(["A", "B", "C"])] with the keys [j],
    [j], Enter: the focus goes to item 2 and the Enter key selects it, yet
    [run] returns [None], not the label ["C"]. *)
Theorem run_single_selection_returns_none (T : Type)
    (tty_setraw tty_setcbreak : T -> T) (t : terminal T) :
  allow_multiple_selection abc = false /\
  (run T tty_setraw tty_setcbreak abc (init abc keys_j_j_enter, t)).1 = Ok None /\
  current_index
    (run T tty_setraw tty_setcbreak abc (init abc keys_j_j_enter, t)).2.1 = 2 /\
  py_index (selection abc) 2 = Some "C" /\
  selected abc
    (run T tty_setraw tty_setcbreak abc (init abc keys_j_j_enter, t)).2.1 2 /\
  (select_option abc
     (with_current_index 2 (init abc []))).1 = Ok (Some "C").
Proof.
  destruct t as [attr calls].
  repeat split; vm_compute; reflexivity.
Qed.

(** ** The session driver stays within the states of a session *)

Section Preserves.
Context {S : Type} (P : S -> Prop).

Lemma preserves_ret {A} (a : A) : preserves P (ret a).
Proof. intros st H. exact H. Qed.

Lemma preserves_get {A} (g : S -> A) : preserves P (get g).
Proof. intros st H. exact H. Qed.

Lemma preserves_bind {A B} (m : SM S A) (k : A -> SM S B) :
  preserves P m -> (forall a, preserves P (k a)) -> preserves P (bind m k).
Proof.
  intros Hm Hk st H. apply bind_post; [apply Hm, H|].
  intros a. apply Hk, Hm, H.
Qed.

Lemma preserves_try_finally {A} (body : SM S A) (fin : SM S unit) :
  preserves P body -> preserves P fin -> preserves P (try_finally body fin).
Proof.
  intros Hb Hf st H. unfold try_finally. specialize (Hb st H).
  destruct (body st) as [[a|e|] st']; cbn in *; try exact Hb;
    specialize (Hf st' Hb); destruct (fin st') as [[[]|e'|] st'']; exact Hf.
Qed.

End Preserves.

Section Driver.
Context {T : Type} (tty_setraw tty_setcbreak : T -> T) (self : config).

Lemma preserves_writer {A} (m : M A) :
  keeps logic m -> preserves (session_state self) m.
Proof.
  intros Hk st Hst. rewrite (logic_eq_stdout st (m st).2 (Hk st)).
  apply session_write, Hst.
Qed.

Lemma preserves_lift {A} (m : M A) :
  preserves (session_state self) m ->
  preserves (fun q : process T => session_state self q.1) (lift T m).
Proof. intros Hm q Hq. rewrite lift_state. apply Hm, Hq. Qed.

Lemma preserves_lift_writer {A} (m : M A) :
  keeps logic m ->
  preserves (fun q : process T => session_state self q.1) (lift T m).
Proof. intros Hk. apply preserves_lift, preserves_writer, Hk. Qed.

Lemma session_state_mainloop fuel :
  preserves (fun q : process T => session_state self q.1) (mainloop T self fuel).
Proof.
  induction fuel as [|fuel IH]; intros [st t] Hst; [exact Hst|].
  cbn [fst] in Hst. rewrite mainloop_S.
  pose proof (session_state_key self _ (take 1 (stdin st))
                (session_read self st 1 Hst)) as Hkey.
  unfold read in Hkey. cbn [snd] in Hkey.
  destruct (manage_key_input self _ _) as [[last|e|] st']; cbn [snd] in Hkey;
    try exact Hkey.
  destruct (_terminate st'); [exact Hkey|]. apply IH. exact Hkey.
Qed.

Lemma session_state_selman_mainstream :
  preserves (fun q : process T => session_state self q.1)
            (selman_mainstream T tty_setraw tty_setcbreak self).
Proof.
  unfold selman_mainstream, tcgetattr, setraw, setcbreak, tcsetattr.
  repeat first
    [ apply preserves_bind; [|intros ?]
    | apply preserves_try_finally
    | apply preserves_get
    | apply preserves_ret
    | apply session_state_mainloop
    | apply preserves_lift_writer; solve [frame]
    | match goal with
      | |- preserves _ (if ?b then _ else _) => destruct b
      | |- preserves _ (modify _) => intros q Hq; exact Hq
      end ].
Qed.

(** Every state [run] ends in, or diverges in, is a state of the session. *)
Lemma session_state_run input (t : terminal T) :
  session_state self
    (run T tty_setraw tty_setcbreak self (init self input, t)).2.1.
Proof.
  assert (H : preserves (fun q : process T => session_state self q.1)
                (run T tty_setraw tty_setcbreak self)).
  { unfold run. apply preserves_bind; [|intros _].
    - apply preserves_lift_writer. frame.
    - apply session_state_selman_mainstream. }
  apply (H (init self input, t)). apply session_init.
Qed.

End Driver.

(** * Further properties of the code *)

(** ** Moving the focus within the list *)

Lemma set_to_unfocused_ok self st i l li :
  boards_ok self st ->
  py_index (selection self) (current_index st) = Some l ->
  py_index (selection self) i = Some li ->
  exists out, set_to_unfocused self i st = (Ok tt, with_stdout out st).
Proof.
  intros Hok Hcur Hi. unfold set_to_unfocused.
  destruct (Hok li (py_index_elem_of _ _ _ Hi)) as [[b Hb] [bb Hbb]].
  rewrite (bind_ok _ _ _ _ _ (is_index_selected_ok self st i li b Hi Hb)).
  destruct b; [apply (render_text_effect_ok self _ _ st l Hcur)|].
  rewrite (bind_ok _ _ _ _ _ (is_index_banned_ok self st i li bb Hi Hbb)).
  destruct bb; apply (render_text_effect_ok self _ _ st l Hcur).
Qed.

Lemma set_to_focused_ok self st i l li :
  boards_ok self st ->
  py_index (selection self) (current_index st) = Some l ->
  py_index (selection self) i = Some li ->
  exists out, set_to_focused self i st = (Ok tt, with_stdout out st).
Proof.
  intros Hok Hcur Hi. unfold set_to_focused.
  destruct (Hok li (py_index_elem_of _ _ _ Hi)) as [[b Hb] [bb Hbb]].
  rewrite (bind_ok _ _ _ _ _ (is_index_selected_ok self st i li b Hi Hb)).
  destruct b; [apply (render_text_effect_ok self _ _ st l Hcur)|].
  rewrite (bind_ok _ _ _ _ _ (is_index_banned_ok self st i li bb Hi Hbb)).
  destruct bb; apply (render_text_effect_ok self _ _ st l Hcur).
Qed.

Lemma index_in_range_label self i :
  0 <= i < len_selection self ->
  exists l, py_index (selection self) i = Some l.
Proof. intros H. apply is_index_valid_label, is_index_valid_spec, H. Qed.

Lemma change_focus_ok self d st :
  boards_ok self st ->
  0 <= current_index st < len_selection self ->
  0 <= current_index st + d < len_selection self ->
  exists out,
    change_focus self d st =
    (Ok tt, State (current_index st + d) (sel_board st) (banned_board st)
                  (_terminate st) out (stdin st)).
Proof.
  intros Hok Hcur Htgt.
  destruct (index_in_range_label self _ Hcur) as [l Hl].
  destruct (index_in_range_label self _ Htgt) as [l' Hl'].
  unfold change_focus. rewrite bind_get.
  destruct (Z.leb_spec 0 (current_index st + d)); [|lia].
  destruct (Z.ltb_spec (current_index st + d) (len_selection self)); [|lia].
  cbn [andb negb].
  destruct (set_to_unfocused_ok self st (current_index st) l l Hok Hl Hl)
    as [out0 Hun].
  rewrite (bind_ok _ _ _ _ _ Hun), bind_modify. cbv beta.
  set (st1 := with_current_index _ _).
  destruct (move_cursor_spec d st1) as (restore & out1 & Hmv & _).
  rewrite (bind_ok _ _ _ _ _ Hmv), bind_get. cbv beta.
  destruct (set_to_focused_ok self (with_stdout out1 st1)
              (current_index (with_stdout out1 st1)) l' l' Hok Hl' Hl')
    as [out2 Hfo].
  rewrite Hfo. exists out2. reflexivity.
Qed.

(** X1.  A focus movement that stays within the list returns, puts the
    focus on the target and leaves every selected and banned flag, the
    termination flag and the pending input as they were. *)
Theorem change_focus_in_range self d st :
  boards_ok self st ->
  0 <= current_index st < len_selection self ->
  0 <= current_index st + d < len_selection self ->
  (change_focus self d st).1 = Ok tt /\
  current_index (change_focus self d st).2 = current_index st + d /\
  sel_board (change_focus self d st).2 = sel_board st /\
  banned_board (change_focus self d st).2 = banned_board st /\
  _terminate (change_focus self d st).2 = _terminate st /\
  stdin (change_focus self d st).2 = stdin st.
Proof.
  intros Hok Hcur Htgt.
  destruct (change_focus_ok self d st Hok Hcur Htgt) as [out ->].
  repeat split.
Qed.

Lemma change_focus_in_range_witness :
  (change_focus abc 2 (init abc [])).1 = Ok tt /\
  current_index (change_focus abc 2 (init abc [])).2 = 0 + 2 /\
  sel_board (change_focus abc 2 (init abc [])).2 = sel_board (init abc []) /\
  banned_board (change_focus abc 2 (init abc [])).2 =
    banned_board (init abc []) /\
  _terminate (change_focus abc 2 (init abc [])).2 = false /\
  stdin (change_focus abc 2 (init abc [])).2 = [].
Proof.
  apply (change_focus_in_range abc 2 (init abc [])).
  - apply session_boards_ok, session_init.
  - vm_compute. split; congruence.
  - vm_compute. split; congruence.
Defined.

(** X2.  Moving the focus by [d] and then by [-d], both within the list, is
    a round trip: the two calls return and change nothing but what is on
    the screen. *)
Theorem change_focus_round_trip self d st :
  boards_ok self st ->
  0 <= current_index st < len_selection self ->
  0 <= current_index st + d < len_selection self ->
  exists out,
    (change_focus self d ;; change_focus self (- d)) st =
    (Ok tt, with_stdout out st).
Proof.
  intros Hok Hcur Htgt.
  destruct (change_focus_ok self d st Hok Hcur Htgt) as [out1 H1].
  rewrite (bind_ok _ _ _ _ _ H1).
  match goal with |- context [change_focus self (- d) ?s] =>
    destruct (change_focus_ok self (- d) s) as [out2 H2] end.
  - exact Hok.
  - exact Htgt.
  - cbn [current_index]. lia.
  - rewrite H2. exists out2. cbn [current_index sel_board banned_board
      _terminate stdin]. replace (current_index st + d + - d)
      with (current_index st) by lia.
    destruct st; reflexivity.
Qed.

Lemma change_focus_round_trip_witness :
  exists out,
    (change_focus abc 1 ;; change_focus abc (- 1)) (init abc []) =
    (Ok tt, with_stdout out (init abc [])).
Proof.
  apply (change_focus_round_trip abc 1 (init abc [])).
  - apply session_boards_ok, session_init.
  - vm_compute. split; congruence.
  - vm_compute. split; congruence.
Defined.

Lemma focus_ok_in_range self st :
  focus_ok self st -> selection self <> [] ->
  0 <= current_index st < len_selection self.
Proof.
  intros [H0 [Hlt|Hz]] Hne; [lia|]. rewrite Hz.
  unfold len_selection. destruct (selection self); [contradiction|].
  cbn [length]. lia.
Qed.

(** X3.  In every state of a session over a selection that is not empty
    the focus is the index of an item. *)
Theorem session_focus_in_range self st :
  session_state self st -> selection self <> [] ->
  0 <= current_index st < len_selection self.
Proof.
  intros Hst Hne. apply focus_ok_in_range; [|exact Hne].
  apply session_focus_ok, Hst.
Qed.

Lemma session_focus_in_range_witness :
  0 <= current_index (call abc (ChangeFocus 1)
                        (call abc (ChangeFocus 5) (init abc [])).2).2
    < len_selection abc.
Proof.
  apply session_focus_in_range.
  - apply session_call, session_call, session_init.
  - discriminate.
Defined.

(** ** Keys *)

Lemma preserves_keeps {S A B} (f : S -> B) (v : B) (m : SM S A) :
  keeps f m -> preserves (fun s => f s = v) m.
Proof. intros Hk st H. rewrite Hk. exact H. Qed.

Lemma select_option_effect_terminate self st :
  _terminate st = true -> _terminate (select_option_effect self st).2 = true.
Proof.
  intros H. unfold select_option_effect. repeat case_match; try exact H;
    reflexivity.
Qed.

Lemma call_keeps_terminated self a :
  preserves (fun s => _terminate s = true) (call self a).
Proof.
  destruct a as [d| | |]; unfold call.
  - apply preserves_keeps. frame.
  - intros st H. destruct (select_option_effect_correct self st) as [out ->].
    apply select_option_effect_terminate, H.
  - apply preserves_bind; [|intros _; apply preserves_ret].
    unfold proceed. apply preserves_bind; [apply preserves_keeps; frame|].
    intros l. apply preserves_bind; [apply preserves_keeps; frame|].
    intros b. apply preserves_bind; [apply preserves_keeps; frame|].
    intros _ st _. reflexivity.
  - intros st _. reflexivity.
Qed.

(** X4.  No key clears the termination flag: once it is set, handling any
    key, bound or not, leaves it set. *)
Theorem terminate_flag_kept self k st :
  _terminate st = true ->
  _terminate (manage_key_input self k st).2 = true.
Proof.
  revert st. change (preserves (fun s => _terminate s = true)
                       (manage_key_input self k)).
  unfold manage_key_input. apply preserves_bind.
  - destruct (is_ansi_key k); [|apply preserves_ret].
    apply preserves_bind; [|intros ?; apply preserves_ret].
    intros st H. exact H.
  - intros k'. destruct (key_events k') as [a|]; [|apply preserves_ret].
    apply call_keeps_terminated.
Qed.

Lemma terminate_flag_kept_witness :
  _terminate
    (manage_key_input pair [x0d]
       (manage_key_input pair ["q"%byte] (init pair [])).2).2 = true.
Proof. apply terminate_flag_kept. reflexivity. Defined.

(** X5.  A key that is not bound is dropped: no action, no output, no
    error.  For the escape byte the two bytes read after it, or what is
    left of the input when it holds fewer, are consumed with it. *)
Theorem unbound_key_ignored self k st :
  key_events (if is_ansi_key k then (k ++ take 2 (stdin st))%list else k)
    = None ->
  manage_key_input self k st =
  (Ok None,
   if is_ansi_key k then with_stdin (drop 2 (stdin st)) st else st).
Proof.
  intros H. unfold manage_key_input.
  destruct (is_ansi_key k).
  - rewrite bind_assoc. unfold read at 1. unfold bind at 1.
    rewrite bind_ret, H. reflexivity.
  - rewrite bind_ret, H. reflexivity.
Qed.

Lemma unbound_key_ignored_witness :
  manage_key_input abc ["x"%byte] (init abc []) = (Ok None, init abc []) /\
  manage_key_input abc [x1b] (init abc ["["%byte]) = (Ok None, init abc []).
Proof.
  split.
  - apply (unbound_key_ignored abc ["x"%byte] (init abc [])). reflexivity.
  - apply (unbound_key_ignored abc [x1b] (init abc ["["%byte])).
    reflexivity.
Defined.

(** X6.  The arrow keys are the keys [j] and [k]: the escape byte followed
    by [[B] is handled like [j], and followed by [[A] like [k], on what is
    left of the input behind the sequence. *)
Theorem arrow_keys_move self st rest :
  (stdin st = "["%byte :: "B"%byte :: rest ->
   manage_key_input self [x1b] st =
   manage_key_input self ["j"%byte] (with_stdin rest st)) /\
  (stdin st = "["%byte :: "A"%byte :: rest ->
   manage_key_input self [x1b] st =
   manage_key_input self ["k"%byte] (with_stdin rest st)).
Proof.
  split; intros Hin; unfold manage_key_input;
    change (is_ansi_key [x1b]) with true; cbv iota;
    rewrite bind_assoc; unfold read at 1; unfold bind at 1;
    rewrite Hin; reflexivity.
Qed.

Lemma arrow_keys_move_witness :
  manage_key_input abc [x1b] (init abc ["["%byte; "B"%byte; "q"%byte]) =
  manage_key_input abc ["j"%byte] (init abc ["q"%byte]).
Proof.
  destruct (arrow_keys_move abc (init abc ["["%byte; "B"%byte; "q"%byte])
              ["q"%byte]) as [H _].
  apply H. reflexivity.
Defined.

(** ** The session, from [run] down to its loop *)

Lemma selman_mainstream_blocks T tty_setraw tty_setcbreak self :
  selman_mainstream T tty_setraw tty_setcbreak self =
  (let* old := tcgetattr T in
   let* last_selection :=
     try_finally (try_block T tty_setraw tty_setcbreak self)
                 (finally_suite T self old) in
   if allow_multiple_selection self then ret last_selection else ret None).
Proof. reflexivity. Qed.

Lemma lift_emits {T A} (m : M A) (q : process T) :
  keeps logic m -> returns m ->
  exists a out, lift T m q = (Ok a, (with_stdout out q.1, q.2)).
Proof.
  intros Hk Hr. destruct (emits_spec m q.1 Hk Hr) as (a & out & H).
  exists a, out. unfold lift. rewrite H. reflexivity.
Qed.

Lemma lift_eq {T A} (m : M A) st (t : terminal T) r st' :
  m st = (r, st') -> lift T m (st, t) = (r, (st', t)).
Proof. intros H. unfold lift. cbn [fst snd]. rewrite H. reflexivity. Qed.

Lemma returns_if {S A} (b : bool) (m1 m2 : SM S A) :
  returns m1 -> returns m2 -> returns (if b then m1 else m2).
Proof. destruct b; auto. Qed.

Lemma keeps_if {S A B} (f : S -> B) (b : bool) (m1 m2 : SM S A) :
  keeps f m1 -> keeps f m2 -> keeps f (if b then m1 else m2).
Proof. destruct b; auto. Qed.

Lemma render_text_effect_focus_raise self e st :
  py_index (selection self) (current_index st) = None ->
  exists out,
    render_text_effect self e None st = (Raise IndexError, with_stdout out st).
Proof.
  intros Hcur. unfold render_text_effect.
  destruct (bind_emits (set_col_offset (col_offset self))
    (fun _ => let* text := current_label self in
              print_text_effect text e (col_offset self) None) st)
    as (_ & out & ->); [frame..|].
  rewrite (bind_raise _ _ _ _ _
    (current_label_raise self (with_stdout out st) Hcur)).
  exists out. reflexivity.
Qed.

Lemma initialize_focus_spec self st :
  exists out,
    initialize_focus self st =
    (match py_index (selection self) (current_index st) with
     | Some _ => Ok tt
     | None => Raise IndexError
     end, with_stdout out st).
Proof.
  unfold initialize_focus. cbv zeta.
  match goal with |- context [bind ?m ?k st] =>
    destruct (bind_emits m k st) as (_ & out0 & ->); [frame..|] end.
  cbv beta.
  match goal with |- context [bind ?m ?k ?s] =>
    destruct (bind_emits m k s) as (_ & out1 & ->); [frame..|] end.
  cbv beta.
  destruct (py_index (selection self) (current_index st)) as [l|] eqn:Hcur.
  - match goal with |- context [render_text_effect self FOCUSED None ?s] =>
      destruct (render_text_effect_ok self FOCUSED None s l Hcur)
        as [out ->] end.
    exists out. reflexivity.
  - match goal with |- context [render_text_effect self FOCUSED None ?s] =>
      destruct (render_text_effect_focus_raise self FOCUSED s Hcur)
        as [out ->] end.
    exists out. reflexivity.
Qed.

Section Blocks.
Context {T : Type} (tty_setraw tty_setcbreak : T -> T) (self : config).

(** The [finally] suite returns: it draws and restores the attributes. *)
Lemma finally_suite_spec old (q : process T) :
  exists out,
    finally_suite T self old q =
    (Ok tt, (with_stdout out q.1,
             Terminal T old (tcsetattr_calls T q.2 ++ [old]))).
Proof.
  unfold finally_suite. destruct q as [st t].
  match goal with |- context [bind ?m _ (st, t)] =>
    destruct (lift_emits (T:=T)
      (if wipe_comments_after_select self then wipe_comments self else ret tt)
      (st, t)) as ([] & out0 & H0) end; [frame|frame|].
  assert (H0' : (if wipe_comments_after_select self
                 then lift T (wipe_comments self) else ret tt) (st, t)
                = (Ok tt, (with_stdout out0 st, t))).
  { destruct (wipe_comments_after_select self); [exact H0|].
    unfold lift, ret in H0 |- *. cbn in H0 |- *. exact H0. }
  rewrite (bind_ok _ _ _ _ _ H0'). cbv beta.
  unfold lift at 1, get at 1. cbn [fst snd]. unfold bind at 1. cbv beta iota zeta.
  match goal with |- context [bind (lift T ?m) ?k ?q'] =>
    destruct (lift_emits (T:=T) m q') as ([] & out1 & H1); [frame|frame|] end.
  rewrite (bind_ok _ _ _ _ _ H1). cbv beta.
  unfold tcsetattr. rewrite bind_modify. cbv beta. cbn [fst snd].
  match goal with |- context [bind (lift T ?m) ?k ?q'] =>
    destruct (lift_emits (T:=T) m q') as ([] & out2 & H2); [frame|frame|] end.
  rewrite (bind_ok _ _ _ _ _ H2). cbv beta.
  match goal with |- context [bind (lift T ?m) ?k ?q'] =>
    destruct (lift_emits (T:=T) m q') as ([] & out3 & H3); [frame|frame|] end.
  rewrite (bind_ok _ _ _ _ _ H3). cbv beta.
  match goal with |- context [lift T ?m ?q'] =>
    destruct (lift_emits (T:=T) m q') as ([] & out4 & H4); [frame|frame|] end.
  rewrite H4. exists out4. reflexivity.
Qed.

(** The [try] block draws, and then either fails to draw the focus, when
    it is on no item, or enters the loop. *)
Lemma try_block_spec st (t : terminal T) :
  exists out,
    let q := (with_stdout out st,
              Terminal T (tty_setcbreak (tty_setraw (tty_attr T t)))
                         (tcsetattr_calls T t)) in
    try_block T tty_setraw tty_setcbreak self (st, t) =
    match py_index (selection self) (current_index st) with
    | Some _ => mainloop T self (S (length (stdin st))) q
    | None => (Raise IndexError, q)
    end.
Proof.
  unfold try_block, setraw, setcbreak. rewrite !bind_modify. cbv beta.
  cbn [fst snd tty_attr tcsetattr_calls].
  match goal with |- context [bind (lift T ?m) ?k ?q'] =>
    destruct (lift_emits (T:=T) m q') as ([] & out0 & H0); [frame|frame|] end.
  rewrite (bind_ok _ _ _ _ _ H0). cbv beta. clear H0.
  match goal with |- context [bind (lift T ?m) ?k ?q'] =>
    destruct (lift_emits (T:=T) m q') as ([] & out1 & H1); [frame|frame|] end.
  rewrite (bind_ok _ _ _ _ _ H1). cbv beta. clear H1.
  cbn [fst snd with_stdout current_index sel_board banned_board _terminate
       stdin stdout].
  match goal with |- context [bind ?m ?k ?q'] =>
    assert (H2 : exists out2, m q' = (Ok tt, (with_stdout out2 st, q'.2))) end.
  { destruct (allow_multiple_selection self).
    - match goal with |- context [lift T ?m ?q'] =>
        destruct (lift_emits (T:=T) m q') as ([] & out2 & H2);
          [frame|frame|] end.
      exists out2. rewrite H2. reflexivity.
    - exists out1. reflexivity. }
  destruct H2 as [out2 H2]. rewrite (bind_ok _ _ _ _ _ H2). cbv beta. clear H2.
  cbn [fst snd].
  match goal with |- context [bind (lift T ?m) ?k ?q'] =>
    destruct (lift_emits (T:=T) m q') as ([] & out3 & H3); [frame|frame|] end.
  rewrite (bind_ok _ _ _ _ _ H3). cbv beta. clear H3.
  cbn [fst snd with_stdout current_index sel_board banned_board _terminate
       stdin stdout].
  match goal with
  | |- context [bind (lift T (initialize_focus self)) ?k (?s, ?tm)] =>
      destruct (initialize_focus_spec self s) as [out4 H4];
      pose proof (lift_eq (T:=T) _ s tm _ _ H4) as H4'
  end.
  cbn [current_index with_stdout] in H4'. clear H4.
  exists out4. cbv zeta.
  destruct (py_index (selection self) (current_index st)) as [l|].
  - rewrite (bind_ok _ _ _ _ _ H4'). reflexivity.
  - rewrite (bind_raise _ _ _ _ _ H4'). reflexivity.
Qed.

End Blocks.

Lemma returns_for_each_in {S A} (l : list A) (body : A -> SM S unit) :
  (forall x, x ∈ l -> returns (body x)) -> returns (for_each l body).
Proof.
  induction l as [|x l IH]; intros Hb; cbn [for_each].
  - apply returns_ret.
  - apply returns_bind.
    + apply Hb. left.
    + intros _. apply IH. intros y Hy. apply Hb. right. exact Hy.
Qed.

Lemma returns_getitem_bind {S A B} (l : list A) i (k : A -> SM S B) :
  is_Some (py_index l i) -> (forall a, returns (k a)) ->
  returns (let* a := getitem l i in k a).
Proof.
  intros [a Ha] Hk. rewrite (getitem_ok _ _ _ Ha).
  intros st. rewrite bind_ret. apply Hk.
Qed.

Lemma keeps_print_unfocused t o rp : keeps logic (print_unfocused t o rp).
Proof. apply (keeps_print_text_effect t UNFOCUSED o rp). Qed.
Lemma returns_print_unfocused t o rp : returns (print_unfocused t o rp).
Proof. apply (returns_print_text_effect t UNFOCUSED o rp). Qed.
#[local] Hint Resolve keeps_print_unfocused returns_print_unfocused
  : keeps returns.

Section Run.
Context {T : Type} (tty_setraw tty_setcbreak : T -> T) (self : config).

(** [run] draws the items, and then its result and the state it leaves are
    those of the loop, but for what is on the screen and the attributes of
    the terminal; with the focus on no item it raises before the loop. *)
Lemma run_spec st (t : terminal T) :
  exists out t',
    let q := mainloop T self (S (length (stdin st))) (with_stdout out st, t') in
    match py_index (selection self) (current_index st) with
    | Some _ =>
        (run T tty_setraw tty_setcbreak self (st, t)).1 =
          session_result self q.1 /\
        logic (run T tty_setraw tty_setcbreak self (st, t)).2.1 = logic q.2.1
    | None =>
        (run T tty_setraw tty_setcbreak self (st, t)).1 = Raise IndexError /\
        logic (run T tty_setraw tty_setcbreak self (st, t)).2.1 = logic st
    end.
Proof.
  unfold run.
  match goal with |- context [bind (lift T ?m) ?k (st, t)] =>
    destruct (lift_emits (T:=T) m (st, t)) as ([] & out0 & H0) end.
  { frame. }
  { apply returns_for_each_in. intros i [Hi1 Hi2]%elem_of_seqZ.
    apply returns_bind; [frame|intros _].
    apply returns_getitem_bind; [|intros a; frame].
    apply is_index_valid_label, is_index_valid_spec. lia. }
  rewrite (bind_ok _ _ _ _ _ H0). cbv beta. clear H0. cbn [fst snd].
  rewrite selman_mainstream_blocks. unfold tcgetattr. rewrite bind_get.
  cbn [fst snd].
  set (old := tty_attr T t).
  destruct (try_block_spec tty_setraw tty_setcbreak self
              (with_stdout out0 st) t) as [out1 Htry].
  cbv zeta in Htry. cbn [with_stdout current_index stdin] in Htry.
  set (t' := Terminal T (tty_setcbreak (tty_setraw (tty_attr T t)))
                      (tcsetattr_calls T t)) in *.
  exists out1, t'. cbv zeta.
  destruct (py_index (selection self) (current_index st)) as [l|].
  - change (with_stdout out1 (with_stdout out0 st))
      with (with_stdout out1 st) in Htry.
    destruct (mainloop T self (S (length (stdin st))) (with_stdout out1 st, t'))
      as [r q'] eqn:Hloop.
    destruct (finally_suite_spec self old q') as [out2 Hfin].
    cbn [fst snd]. destruct r as [v|e|].
    + assert (Htf : try_finally (try_block T tty_setraw tty_setcbreak self)
                (finally_suite T self old) (with_stdout out0 st, t) =
              (Ok v, (with_stdout out2 q'.1,
                      Terminal T old (tcsetattr_calls T q'.2 ++ [old]))))
        by (unfold try_finally; rewrite Htry, Hfin; reflexivity).
      rewrite (bind_ok _ _ _ _ _ Htf).
      destruct (allow_multiple_selection self) eqn:Hm; cbn;
        rewrite Hm; auto.
    + assert (Htf : try_finally (try_block T tty_setraw tty_setcbreak self)
                (finally_suite T self old) (with_stdout out0 st, t) =
              (Raise e, (with_stdout out2 q'.1,
                         Terminal T old (tcsetattr_calls T q'.2 ++ [old]))))
        by (unfold try_finally; rewrite Htry, Hfin; reflexivity).
      rewrite (bind_raise _ _ _ _ _ Htf). cbn. auto.
    + assert (Htf : try_finally (try_block T tty_setraw tty_setcbreak self)
                (finally_suite T self old) (with_stdout out0 st, t) =
              (Diverge, q'))
        by (unfold try_finally; rewrite Htry; reflexivity).
      rewrite (bind_diverge _ _ _ _ Htf). cbn. auto.
  - destruct (finally_suite_spec self old
                (with_stdout out1 (with_stdout out0 st), t')) as [out2 Hfin].
    assert (Htf : try_finally (try_block T tty_setraw tty_setcbreak self)
                (finally_suite T self old) (with_stdout out0 st, t) =
              (Raise IndexError,
               (with_stdout out2 (with_stdout out1 (with_stdout out0 st)),
                Terminal T old (tcsetattr_calls T t' ++ [old]))))
      by (unfold try_finally; rewrite Htry, Hfin; reflexivity).
    rewrite (bind_raise _ _ _ _ _ Htf). cbn. auto.
Qed.

(** The loop returns only once the termination flag is set. *)
Lemma mainloop_returns_terminated fuel (p : process T) v :
  (mainloop T self fuel p).1 = Ok v ->
  _terminate (mainloop T self fuel p).2.1 = true.
Proof.
  revert p. induction fuel as [|fuel IH]; intros [st t]; [discriminate|].
  rewrite mainloop_S.
  destruct (manage_key_input self _ _) as [[last|e|] st'] eqn:Hk;
    try discriminate.
  destruct (_terminate st') eqn:Hterm; [intros _; exact Hterm|apply IH].
Qed.

End Run.

(** X7.  [run] returns only after the termination flag has been set: by an
    activation in single-selection mode, by [proceed] or by [terminate]. *)
Theorem run_returns_terminated (T : Type) (tty_setraw tty_setcbreak : T -> T)
    (self : config) (p : process T) v :
  (run T tty_setraw tty_setcbreak self p).1 = Ok v ->
  _terminate (run T tty_setraw tty_setcbreak self p).2.1 = true.
Proof.
  destruct p as [st t].
  destruct (run_spec tty_setraw tty_setcbreak self st t) as (out & t' & H).
  cbv zeta in H.
  destruct (py_index (selection self) (current_index st)) as [l|].
  - destruct H as [Hr Hl]. rewrite Hr. intros Hok.
    assert (Ht : _terminate (run T tty_setraw tty_setcbreak self (st, t)).2.1 =
                 _terminate (mainloop T self (S (length (stdin st)))
                               (with_stdout out st, t')).2.1)
      by (unfold logic in Hl; congruence).
    rewrite Ht.
    destruct (mainloop T self (S (length (stdin st))) (with_stdout out st, t')).1
      as [v'|e|] eqn:Hm; try discriminate.
    apply (mainloop_returns_terminated self _ _ v' Hm).
  - destruct H as [Hr _]. rewrite Hr. discriminate.
Qed.

Lemma run_returns_terminated_witness :
  _terminate (run Z raw_of cbreak_of pair
                (init pair ["j"%byte; "n"%byte], console 0)).2.1 = true.
Proof.
  apply (run_returns_terminated Z raw_of cbreak_of pair _ None).
  vm_compute. reflexivity.
Defined.

(** X8.  A session over an empty selection raises [IndexError] when it
    draws the initial focus: no key is read. *)
Theorem run_empty_selection (T : Type) (tty_setraw tty_setcbreak : T -> T)
    (self : config) (input : list byte) (t : terminal T) :
  selection self = [] ->
  (run T tty_setraw tty_setcbreak self (init self input, t)).1 =
    Raise IndexError /\
  stdin (run T tty_setraw tty_setcbreak self (init self input, t)).2.1 = input /\
  _terminate (run T tty_setraw tty_setcbreak self (init self input, t)).2.1 =
    false.
Proof.
  intros Hempty.
  destruct (run_spec tty_setraw tty_setcbreak self (init self input) t)
    as (out & t' & H).
  cbv zeta in H. cbn [init current_index] in H. rewrite Hempty in H.
  change (py_index (@nil string) 0) with (@None string) in H.
  destruct H as [Hr Hl]. split; [exact Hr|].
  unfold logic in Hl. injection Hl as _ _ _ Ht Hi. auto.
Qed.

Lemma run_empty_selection_witness :
  let self := Config [] 0 true None (Some ["press n to proceed..."]) true ascending in
  (run Z raw_of cbreak_of self (init self ["n"%byte], console 0)).1 =
    Raise IndexError /\
  stdin (run Z raw_of cbreak_of self (init self ["n"%byte], console 0)).2.1 =
    ["n"%byte] /\
  _terminate (run Z raw_of cbreak_of self
                (init self ["n"%byte], console 0)).2.1 = false.
Proof. intros self. apply run_empty_selection. reflexivity. Defined.

(** ** A session that cannot raise *)

Lemma change_focus_outside self d st :
  (0 <=? current_index st + d) && (current_index st + d <? len_selection self)
    = false ->
  change_focus self d st = (Ok tt, st).
Proof.
  intros H. unfold change_focus. rewrite bind_get, H. reflexivity.
Qed.

Lemma select_option_effect_safe self st :
  safe_config self -> boards_ok self st ->
  0 <= current_index st < len_selection self ->
  exists v, (select_option_effect self st).1 = Ok v.
Proof.
  intros [_ Hsafe] Hok Hcur. specialize (Hsafe _ Hcur).
  destruct (index_in_range_label self _ Hcur) as [l Hl].
  unfold select_option_effect. rewrite Hl.
  destruct (negb (allow_multiple_selection self)); [eauto|].
  destruct (Hok l (py_index_elem_of _ _ _ Hl)) as [[b ->] _].
  destruct (opposite self (current_index st)) as [[p|]|e|];
    try contradiction.
  - destruct Hsafe as [lp Hp]. rewrite Hp.
    destruct (Hok lp (py_index_elem_of _ _ _ Hp)) as [_ [bb ->]].
    destruct b, bb; eauto.
  - destruct b; eauto.
Qed.

Lemma call_safe self a st :
  safe_config self -> session_state self st ->
  exists v, (call self a st).1 = Ok v.
Proof.
  intros Hsafe Hst.
  pose proof (session_boards_ok self st Hst) as Hok.
  pose proof (focus_ok_in_range self st (session_focus_ok self st Hst)
                (proj1 Hsafe)) as Hcur.
  destruct (index_in_range_label self _ Hcur) as [l Hl].
  destruct a as [d| | |]; unfold call.
  - destruct ((0 <=? current_index st + d) &&
              (current_index st + d <? len_selection self)) eqn:Hin.
    + apply andb_true_iff in Hin as [H1%Z.leb_le H2%Z.ltb_lt].
      destruct (change_focus_ok self d st Hok Hcur) as [out H]; [lia|].
      rewrite (bind_ok _ _ _ _ _ H). eauto.
    + rewrite (bind_ok _ _ _ _ _ (change_focus_outside self d st Hin)). eauto.
  - destruct (select_option_effect_correct self st) as [out ->].
    apply (select_option_effect_safe self st Hsafe Hok Hcur).
  - destruct (proceed_ok self st l Hl) as [out H].
    + apply (Hok l (py_index_elem_of _ _ _ Hl)).
    + rewrite (bind_ok _ _ _ _ _ H). eauto.
  - eauto.
Qed.

Lemma manage_key_input_eq self k st :
  manage_key_input self k st =
  match key_events (if is_ansi_key k
                    then (k ++ take 2 (stdin st))%list else k) with
  | Some a =>
      call self a
        (if is_ansi_key k then with_stdin (drop 2 (stdin st)) st else st)
  | None =>
      (Ok None,
       if is_ansi_key k then with_stdin (drop 2 (stdin st)) st else st)
  end.
Proof.
  unfold manage_key_input. destruct (is_ansi_key k).
  - rewrite bind_assoc. unfold read at 1. unfold bind at 1. rewrite bind_ret.
    destruct (key_events _); reflexivity.
  - rewrite bind_ret. destruct (key_events k); reflexivity.
Qed.

Lemma manage_key_input_safe self k st :
  safe_config self -> session_state self st ->
  exists v, (manage_key_input self k st).1 = Ok v.
Proof.
  intros Hsafe Hst. unfold manage_key_input.
  destruct (is_ansi_key k).
  - rewrite bind_assoc. unfold read at 1. unfold bind at 1. rewrite bind_ret.
    destruct (key_events _) as [a|]; [|eauto].
    apply call_safe; [exact Hsafe|].
    apply (session_read self st 2 Hst).
  - rewrite bind_ret. destruct (key_events k) as [a|]; [|eauto].
    apply call_safe; assumption.
Qed.

Lemma mainloop_safe {T} self fuel (p : process T) e :
  safe_config self -> session_state self p.1 ->
  (mainloop T self fuel p).1 <> Raise e.
Proof.
  intros Hsafe. revert p. induction fuel as [|fuel IH]; intros [st t] Hst;
    [discriminate|].
  cbn [fst] in Hst. rewrite mainloop_S.
  pose proof (session_read self st 1 Hst) as Hrd.
  unfold read in Hrd. cbn [snd] in Hrd.
  destruct (manage_key_input_safe self (take 1 (stdin st)) _ Hsafe Hrd)
    as [v Hv].
  pose proof (session_state_key self _ (take 1 (stdin st)) Hrd) as Hkey.
  destruct (manage_key_input self _ _) as [r st']. cbn [fst snd] in Hv, Hkey.
  subst r. destruct (_terminate st'); [discriminate|].
  apply IH. exact Hkey.
Qed.

(** X9.  With a selection that is not empty and a mutex group in which
    [get_opposite_mutex_index], in the order in which the interpreter
    iterates the group, finds for every item no partner or an item, a
    session never raises, whatever is typed: [run] returns or waits for
    more input. *)
Theorem run_never_raises (T : Type) (tty_setraw tty_setcbreak : T -> T)
    (self : config) (input : list byte) (t : terminal T) e :
  safe_config self ->
  (run T tty_setraw tty_setcbreak self (init self input, t)).1 <> Raise e.
Proof.
  intros Hsafe.
  destruct (run_spec tty_setraw tty_setcbreak self (init self input) t)
    as (out & t' & H).
  cbv zeta in H.
  destruct (index_in_range_label self (current_index (init self input)))
    as [l Hl].
  { apply focus_ok_in_range; [|exact (proj1 Hsafe)].
    apply session_focus_ok, session_init. }
  rewrite Hl in H. destruct H as [-> _].
  pose proof (mainloop_safe (T:=T) self
                (S (length (stdin (init self input))))
                (with_stdout out (init self input), t') e Hsafe
                (session_write self _ out (session_init self input))) as Hm.
  destruct (mainloop T self _ _).1; cbn; congruence.
Qed.

Lemma pair_safe_config : safe_config pair.
Proof.
  split; [discriminate|]. intros i Hi.
  assert (Hc : i = 0 \/ i = 1)
    by (change (len_selection pair) with 2 in Hi; lia).
  destruct Hc as [-> | ->]; vm_compute; eauto.
Defined.

Lemma run_never_raises_witness :
  (run Z raw_of cbreak_of pair
     (init pair [x0d; "j"%byte; x0d; "n"%byte], console 0)).1
    <> Raise IndexError.
Proof. apply run_never_raises, pair_safe_config. Defined.

(** ** Single-selection mode selects one label *)

Lemma logic_sel_board st st' : logic st = logic st' -> sel_board st = sel_board st'.
Proof. unfold logic. intros H. congruence. Qed.

Lemma call_single_selected self a st :
  allow_multiple_selection self = false ->
  (forall l : string, sel_board st !! l <> Some true) ->
  (_terminate (call self a st).2 = false ->
   forall l : string, sel_board (call self a st).2 !! l <> Some true) /\
  (exists l0 : string, forall l : string,
     sel_board (call self a st).2 !! l = Some true -> l = l0).
Proof.
  intros Hmode Hnone.
  destruct (call_boards self a st) as [[Hs _]|(-> & Hs & _)].
  - rewrite Hs. split; [auto|]. exists "". intros l Hl.
    destruct (Hnone l Hl).
  - destruct (select_option_effect_correct self st) as [out Hsel].
    assert (Ht : _terminate (call self SelectOption st).2 =
                 _terminate (select_option_effect self st).2).
    { unfold call. rewrite Hsel. reflexivity. }
    rewrite Hs, Ht. clear Hs Ht Hsel. unfold select_option_effect.
    rewrite Hmode. cbn [negb].
    destruct (py_index (selection self) (current_index st)) as [l0|].
    + cbn [snd _terminate sel_board with_terminate with_sel_board].
      split; [discriminate|]. exists l0. intros l Hl.
      rewrite lookup_insert in Hl. case_decide; [congruence|].
      destruct (Hnone l Hl).
    + cbn [snd]. split; [auto|]. exists "". intros l Hl.
      destruct (Hnone l Hl).
Qed.

Lemma manage_key_input_single_selected self k st :
  allow_multiple_selection self = false ->
  (forall l : string, sel_board st !! l <> Some true) ->
  (_terminate (manage_key_input self k st).2 = false ->
   forall l : string,
     sel_board (manage_key_input self k st).2 !! l <> Some true) /\
  (exists l0 : string, forall l : string,
     sel_board (manage_key_input self k st).2 !! l = Some true -> l = l0).
Proof.
  intros Hmode Hnone. rewrite manage_key_input_eq.
  set (st0 := if is_ansi_key k then with_stdin _ st else st).
  assert (Hnone0 : forall l : string, sel_board st0 !! l <> Some true)
    by (unfold st0; destruct (is_ansi_key k); exact Hnone).
  destruct (key_events _) as [a|].
  - apply call_single_selected; assumption.
  - cbn [snd]. split; [auto|]. exists "". intros l Hl.
    destruct (Hnone0 l Hl).
Qed.

Lemma mainloop_single_selected {T} self fuel (p : process T) :
  allow_multiple_selection self = false ->
  (forall l : string, sel_board p.1 !! l <> Some true) ->
  exists l0 : string, forall l : string,
    sel_board (mainloop T self fuel p).2.1 !! l = Some true -> l = l0.
Proof.
  intros Hmode. revert p. induction fuel as [|fuel IH]; intros [st t] Hnone.
  - exists "". intros l Hl. destruct (Hnone l Hl).
  - cbn [fst] in Hnone. rewrite mainloop_S.
    destruct (manage_key_input_single_selected self (take 1 (stdin st))
                (with_stdin (drop 1 (stdin st)) st) Hmode Hnone)
      as [Hgo Hone].
    destruct (manage_key_input self _ _) as [[last|e|] st'];
      cbn [fst snd] in *; try exact Hone.
    destruct (_terminate st'); [exact Hone|].
    apply IH. cbn [fst]. apply Hgo. reflexivity.
Qed.

(** X10.  When a single-selection session is over, or waits for input, all
    selected items carry one label and no item is banned. *)
Theorem run_single_selection_one_label (T : Type)
    (tty_setraw tty_setcbreak : T -> T) (self : config) (input : list byte)
    (t : terminal T) :
  allow_multiple_selection self = false ->
  (forall i j,
     selected self
       (run T tty_setraw tty_setcbreak self (init self input, t)).2.1 i ->
     selected self
       (run T tty_setraw tty_setcbreak self (init self input, t)).2.1 j ->
     py_index (selection self) i = py_index (selection self) j) /\
  (forall i,
     ~ banned self
         (run T tty_setraw tty_setcbreak self (init self input, t)).2.1 i).
Proof.
  intros Hmode.
  assert (Hinit : forall out (l : string),
            sel_board (with_stdout out (init self input)) !! l <> Some true).
  { intros out l. cbn [sel_board with_stdout init].
    rewrite lookup_init_board. case_decide; discriminate. }
  split.
  - assert (Hone : exists l0 : string, forall l : string,
      sel_board (run T tty_setraw tty_setcbreak self
                   (init self input, t)).2.1 !! l = Some true -> l = l0).
    { destruct (run_spec tty_setraw tty_setcbreak self (init self input) t)
        as (out & t' & H). cbv zeta in H.
      destruct (py_index (selection self) (current_index (init self input)));
        destruct H as [_ Hl]; rewrite (logic_sel_board _ _ Hl).
      - apply mainloop_single_selected; [exact Hmode|]. apply Hinit.
      - exists "". intros l Hsl. destruct (Hinit [] l Hsl). }
    destruct Hone as [l0 Hone].
    intros i j (li & Hi & Hsi)%selected_label (lj & Hj & Hsj)%selected_label.
    rewrite Hi, Hj, (Hone li Hsi), (Hone lj Hsj). reflexivity.
  - intros i (li & Hi & Hb)%banned_label.
    destruct (session_flags_exclusive self _
                (session_state_run tty_setraw tty_setcbreak self input t))
      as [_ Hsingle].
    exact (Hsingle Hmode li Hb).
Qed.

Lemma run_single_selection_one_label_witness :
  (forall i j,
     selected abc
       (run Z raw_of cbreak_of abc (init abc keys_j_j_enter, console 0)).2.1 i ->
     selected abc
       (run Z raw_of cbreak_of abc (init abc keys_j_j_enter, console 0)).2.1 j ->
     py_index (selection abc) i = py_index (selection abc) j) /\
  (forall i,
     ~ banned abc
         (run Z raw_of cbreak_of abc (init abc keys_j_j_enter, console 0)).2.1 i).
Proof. apply run_single_selection_one_label. reflexivity. Defined.

(** ** The keys of the boards *)

Lemma insert_within (L : list string) (m : gmap string bool) l v :
  (forall k : string, is_Some (m !! k) -> k ∈ L) -> l ∈ L ->
  forall k : string, is_Some (<[l := v]> m !! k) -> k ∈ L.
Proof.
  intros Hm Hl k. rewrite lookup_insert. case_decide; [subst; auto|apply Hm].
Qed.

Lemma boards_within_intro self st :
  (forall k : string, is_Some (sel_board st !! k) -> k ∈ selection self) ->
  (forall k : string, is_Some (banned_board st !! k) -> k ∈ selection self) ->
  boards_within self st.
Proof. intros H1 H2 k. split; auto. Qed.

Lemma select_option_effect_boards_within self st :
  boards_within self st -> boards_within self (select_option_effect self st).2.
Proof.
  intros Hin.
  assert (Hs : forall k : string,
            is_Some (sel_board st !! k) -> k ∈ selection self)
    by (intros k; apply Hin).
  assert (Hb : forall k : string,
            is_Some (banned_board st !! k) -> k ∈ selection self)
    by (intros k; apply Hin).
  unfold select_option_effect.
  destruct (py_index (selection self) (current_index st)) as [l|] eqn:Hl;
    [|exact Hin].
  pose proof (py_index_elem_of _ _ _ Hl) as Hlin.
  destruct (negb (allow_multiple_selection self)).
  { apply boards_within_intro; proj; [apply insert_within|]; assumption. }
  destruct (sel_board st !! l) as [[|]|]; [| |exact Hin].
  - destruct (opposite self (current_index st)) as [[p|]|e|];
      try (apply boards_within_intro; proj; [apply insert_within|];
           assumption).
    destruct (py_index (selection self) p) as [lp|] eqn:Hp;
      [|apply boards_within_intro; proj; [apply insert_within|]; assumption].
    pose proof (py_index_elem_of _ _ _ Hp) as Hpin.
    destruct (banned_board st !! lp) as [[|]|];
      apply boards_within_intro; proj; try assumption;
      apply insert_within; assumption.
  - destruct (opposite self (current_index st)) as [[p|]|e|];
      try (apply boards_within_intro; proj; apply insert_within; assumption).
    destruct (py_index (selection self) p) as [lp|] eqn:Hp;
      [|apply boards_within_intro; proj; apply insert_within; assumption].
    pose proof (py_index_elem_of _ _ _ Hp) as Hpin.
    apply boards_within_intro; proj;
      apply insert_within; try assumption; apply insert_within; assumption.
Qed.

Lemma session_boards_within self st :
  session_state self st -> boards_within self st.
Proof.
  induction 1 as [input|st out _ IH|st n _ IH|st a _ IH
                 |st i r Hm _ IH|st i r Hm _ IH].
  - intros k. cbn [init sel_board banned_board].
    rewrite lookup_init_board. case_decide; split; intros [? ?]; auto;
      discriminate.
  - exact IH.
  - exact IH.
  - unfold boards_within.
    destruct (call_boards self a st) as [[Hs Hb]|(_ & Hs & Hb)];
      rewrite Hs, Hb; [exact IH|].
    exact (select_option_effect_boards_within self st IH).
  - unfold boards_within.
    destruct (ban_selection_by_index_flags self i r st)
      as [_ [[Hs Hb]|(li & Hi & Hs & Hb)]]; rewrite Hs, Hb; [exact IH|].
    pose proof (py_index_elem_of _ _ _ Hi) as Hin.
    intros k. split; apply insert_within; try exact Hin; intros k'; apply IH.
  - unfold boards_within.
    destruct (unban_selection_by_index_flags self i r st)
      as (_ & Hs & [Hb|(li & Hi & Hb)]); rewrite Hs, Hb; [exact IH|].
    pose proof (py_index_elem_of _ _ _ Hi) as Hin.
    intros k. split; [apply IH|].
    apply insert_within; try exact Hin; intros k'; apply IH.
Qed.

(** X11.  Throughout a session the keys of [sel_board] and of
    [banned_board] are the labels, no more and no less: reading either
    board at a label never raises [KeyError], and no other key appears. *)
Theorem boards_keys_are_labels self st k :
  session_state self st ->
  (is_Some (sel_board st !! k) <-> k ∈ selection self) /\
  (is_Some (banned_board st !! k) <-> k ∈ selection self).
Proof.
  intros Hst.
  destruct (session_boards_within self st Hst k) as [Hs Hb].
  pose proof (session_boards_ok self st Hst k) as Hok.
  split; split; auto; intros Hk; apply Hok, Hk.
Qed.

Lemma boards_keys_are_labels_witness :
  (is_Some (sel_board (call pair SelectOption (init pair [])).2 !! "B")
   <-> "B" ∈ selection pair) /\
  (is_Some (banned_board (call pair SelectOption (init pair [])).2 !! "B")
   <-> "B" ∈ selection pair).
Proof.
  apply boards_keys_are_labels. apply session_call, session_init.
Defined.

(** ** What an activation leaves alone *)

(** X12.  An activation changes the flags of the focused item's label and
    of the label of the partner [get_opposite_mutex_index] finds for it, in
    the order in which the interpreter iterates the group, and no other:
    under every other label the selected and the banned flag stay as they
    were, in either mode and also when the call raises. *)
Theorem select_option_other_labels self st k :
  (forall l, py_index (selection self) (current_index st) = Some l -> k <> l) ->
  (forall p lp, opposite self (current_index st) = Ok (Some p) ->
                py_index (selection self) p = Some lp -> k <> lp) ->
  sel_board (select_option self st).2 !! k = sel_board st !! k /\
  banned_board (select_option self st).2 !! k = banned_board st !! k.
Proof.
  intros Hl Hp.
  destruct (select_option_effect_correct self st) as [out ->].
  cbn [snd with_stdout sel_board banned_board].
  unfold select_option_effect.
  destruct (py_index (selection self) (current_index st)) as [l|]; [|auto].
  specialize (Hl l eq_refl).
  destruct (negb (allow_multiple_selection self)).
  { proj. rewrite lookup_insert_ne by congruence. auto. }
  destruct (sel_board st !! l) as [[|]|]; [| |auto].
  - destruct (opposite self (current_index st)) as [[p|]|e|];
      try (proj; rewrite lookup_insert_ne by congruence; auto).
    destruct (py_index (selection self) p) as [lp|] eqn:Hpp;
      [|proj; rewrite lookup_insert_ne by congruence; auto].
    specialize (Hp p lp eq_refl Hpp).
    destruct (banned_board st !! lp) as [[|]|]; proj;
      rewrite ?lookup_insert_ne by congruence; auto.
  - destruct (opposite self (current_index st)) as [[p|]|e|];
      try (proj; rewrite !lookup_insert_ne by congruence; auto).
    destruct (py_index (selection self) p) as [lp|] eqn:Hpp;
      [|proj; rewrite !lookup_insert_ne by congruence; auto].
    specialize (Hp p lp eq_refl Hpp).
    proj. rewrite !lookup_insert_ne by congruence. auto.
Qed.

Lemma select_option_other_labels_witness :
  let self :=
    Config ["A"; "B"; "C"] 0 true (Some {[ {[0; 1]} ]}) None true ascending in
  sel_board (select_option self (init self [])).2 !! "C" =
    sel_board (init self []) !! "C" /\
  banned_board (select_option self (init self [])).2 !! "C" =
    banned_board (init self []) !! "C".
Proof.
  intros self. apply select_option_other_labels.
  - intros l Hl. vm_compute in Hl. injection Hl as <-. discriminate.
  - intros p lp Hp Hlp. vm_compute in Hp. injection Hp as <-.
    vm_compute in Hlp. injection Hlp as <-. discriminate.
Defined.

(** ** The mutex partner, and errors in the mutex group *)

Lemma mutex_scan_find self i (l : list (gset Z)) st :
  mutex_scan self i l st =
  match List.find (fun s : gset Z => bool_decide (i ∈ s)) l with
  | None => (Ok None, st)
  | Some s =>
      match iter_difference (set_order self) s i with
      | j :: _ => (Ok (Some j), st)
      | [] => (Raise StopIteration, st)
      end
  end.
Proof.
  induction l as [|s l IH]; cbn [mutex_scan List.find]; [reflexivity|].
  destruct (bool_decide (i ∈ s)); [|exact IH].
  destruct (iter_difference (set_order self) s i); reflexivity.
Qed.

(** X13.  [get_opposite_mutex_index(i)] raises [StopIteration] exactly when
    the first set of the mutex group that contains [i], in the order in
    which the interpreter iterates the group, contains nothing else; it
    raises nothing else. *)
Theorem get_opposite_mutex_index_stop self i st e :
  (get_opposite_mutex_index self i st).1 = Raise e <->
  e = StopIteration /\
  exists g : gset (gset Z),
    mutex_group self = Some g /\
    List.find (fun s : gset Z => bool_decide (i ∈ s))
              (iter_sets (set_order self) g)
      = Some {[i]}.
Proof.
  unfold get_opposite_mutex_index.
  destruct (mutex_group self) as [g|].
  2: { split; [discriminate|]. intros [_ (g & [=] & _)]. }
  rewrite mutex_scan_find.
  destruct (List.find _ (iter_sets (set_order self) g)) as [s|] eqn:Hfind.
  2: { split; [discriminate|]. intros [_ (g' & [= <-] & Hf)]. congruence. }
  assert (Hin : i ∈ s).
  { apply find_some in Hfind as [_ Hd]. apply bool_decide_eq_true in Hd.
    exact Hd. }
  pose proof (iter_difference_nil (set_order self) s i Hin) as Hempty.
  destruct (iter_difference (set_order self) s i) as [|j rest]; cbn [fst].
  - split.
    + intros [= <-]. split; [reflexivity|]. exists g. split; [reflexivity|].
      rewrite (proj1 Hempty eq_refl) in Hfind. exact Hfind.
    + intros [-> _]. reflexivity.
  - split; [discriminate|]. intros [_ (g' & [= <-] & Hf)].
    rewrite Hfind in Hf. injection Hf as ->.
    destruct Hempty as [_ He]. discriminate (He eq_refl).
Qed.

(** A group whose only set is [{0}]: the lookup for item 0 stops. *)
Example get_opposite_mutex_index_alone :
  let self := Config ["A"] 0 true (Some {[ {[0]} ]}) None true ascending in
  (get_opposite_mutex_index self 0 (init self [])).1 = Raise StopIteration /\
  (select_option self (init self [])).1 = Raise StopIteration.
Proof. split; vm_compute; reflexivity. Qed.

(** X14.  In multi-selection mode, activating an unselected item for which
    [get_opposite_mutex_index], in the order in which the interpreter
    iterates the group, finds a partner index that is no item raises
    [IndexError] after the item has been marked: the call leaves it
    selected and unbanned. *)
Theorem select_option_partner_no_item self st l p :
  allow_multiple_selection self = true ->
  py_index (selection self) (current_index st) = Some l ->
  sel_board st !! l = Some false ->
  opposite self (current_index st) = Ok (Some p) ->
  py_index (selection self) p = None ->
  (select_option self st).1 = Raise IndexError /\
  sel_board (select_option self st).2 !! l = Some true /\
  banned_board (select_option self st).2 !! l = Some false.
Proof.
  intros Hmode Hl Hsel Hopp Hp.
  destruct (select_option_effect_correct self st) as [out ->].
  unfold select_option_effect. rewrite Hl, Hmode, Hsel, Hopp, Hp.
  cbn [negb fst snd]. proj. rewrite !lookup_insert_eq. auto.
Qed.

Lemma select_option_partner_no_item_witness :
  (select_option stray (init stray [])).1 = Raise IndexError /\
  sel_board (select_option stray (init stray [])).2 !! "A" = Some true /\
  banned_board (select_option stray (init stray [])).2 !! "A" = Some false.
Proof.
  apply (select_option_partner_no_item stray (init stray []) "A" 5);
    vm_compute; reflexivity.
Defined.

(** X15.  In a mutex group where no index lies in two sets, the two items
    of a pair are each other's partner. *)
Theorem get_opposite_mutex_index_pair self a b st :
  wf_mutex_group self -> mutex_pair self a b ->
  get_opposite_mutex_index self a st = (Ok (Some b), st) /\
  get_opposite_mutex_index self b st = (Ok (Some a), st).
Proof.
  intros Hwf Hp. rewrite !get_opposite_mutex_index_pure.
  rewrite (opposite_pair self a b Hwf Hp).
  rewrite (opposite_pair self b a Hwf (mutex_pair_sym self a b Hp)).
  auto.
Qed.

Lemma get_opposite_mutex_index_pair_witness :
  get_opposite_mutex_index pair 0 (init pair []) = (Ok (Some 1), init pair []) /\
  get_opposite_mutex_index pair 1 (init pair []) = (Ok (Some 0), init pair []).
Proof.
  apply get_opposite_mutex_index_pair.
  - intros g [= <-]. split.
    + intros s1 s2 i ->%elem_of_singleton ->%elem_of_singleton _ _.
      reflexivity.
    + intros s i ->%elem_of_singleton [->%elem_of_singleton
        | ->%elem_of_singleton]%elem_of_union; vm_compute; split; congruence.
  - exists {[ {[0; 1]} ]}. split; [reflexivity|].
    split; [apply elem_of_singleton; reflexivity|lia].
Defined.

(** ** Moving the cursor and moving it back *)

(** X16.  [move_cursor_by_relative_pos_row(d)] writes one movement of [|d|]
    rows, down for a positive [d] and up for a negative one, and the
    callable it returns writes the movement of the same [|d|] rows the
    other way; for [d = 0] neither writes anything. *)
Theorem move_cursor_restore d st :
  exists restore,
    move_cursor_by_relative_pos_row d st =
      (Ok restore,
       with_stdout
         (stdout st ++
          if d =? 0 then []
          else [csi (Z.abs d) (if 0 <? d then "B" else "A")])%list st) /\
    forall s,
      restore s =
      (Ok tt,
       with_stdout
         (stdout s ++
          if d =? 0 then []
          else [csi (Z.abs d) (if 0 <? d then "A" else "B")])%list s).
Proof.
  unfold move_cursor_by_relative_pos_row.
  destruct (Z.eqb_spec d 0) as [->|Hne].
  { exists (ret tt). split; [|intros s]; rewrite app_nil_r;
      [destruct st|destruct s]; reflexivity. }
  assert (Habs : (Z.abs d =? 0) = false) by (apply Z.eqb_neq; lia).
  destruct (0 <? d).
  - exists (cursor_up (Z.abs d)). unfold cursor_down, cursor_up.
    rewrite Habs. split; [|intros s]; reflexivity.
  - exists (cursor_down (Z.abs d)). unfold cursor_down, cursor_up.
    rewrite Habs. split; [|intros s]; reflexivity.
Qed.

(** ** What an activation does to the termination flag *)

(** X17.  In multi-selection mode an activation never ends the session: the
    termination flag is after the call what it was before, whichever
    branch the call takes and also when it raises. *)
Theorem select_option_multi_goes_on self st :
  allow_multiple_selection self = true ->
  _terminate (select_option self st).2 = _terminate st.
Proof.
  intros Hmode. destruct (select_option_effect_correct self st) as [out ->].
  unfold select_option_effect. rewrite Hmode. cbn [negb].
  repeat case_match; reflexivity.
Qed.

Lemma select_option_multi_goes_on_witness :
  _terminate (select_option pair (init pair [])).2 = false.
Proof. apply (select_option_multi_goes_on pair (init pair [])). reflexivity. Defined.

(** ** Drawing a line *)

Lemma set_col_offset_eq o st :
  set_col_offset o st =
  (Ok tt, with_stdout (stdout st ++ [csi (if o <? 0 then 0 else o) "G"])%list st).
Proof. reflexivity. Qed.

Lemma render_at_row_ends_with_column rp o draw st :
  keeps logic draw -> returns draw ->
  exists out,
    _render_at_row rp o draw st =
    (Ok tt, with_stdout (out ++ [csi (if o <? 0 then 0 else o) "G"])%list st).
Proof.
  intros Hk Hr. unfold _render_at_row, _restore_cursor_pos_col.
  destruct rp as [rp|].
  - destruct (move_cursor_spec rp st) as (restore & out0 & Hmv & Hkr & Hrr).
    rewrite (bind_ok _ _ _ _ _ Hmv).
    destruct (emits_spec draw (with_stdout out0 st) Hk Hr) as ([] & out1 & Hd).
    destruct (emits_spec restore (with_stdout out1 (with_stdout out0 st))
                Hkr Hrr) as ([] & out2 & Hre).
    exists out2. unfold try_finally. rewrite Hd.
    rewrite (bind_ok _ _ _ _ _ Hre), set_col_offset_eq. reflexivity.
  - destruct (emits_spec draw st Hk Hr) as ([] & out1 & Hd).
    exists out1. rewrite (bind_ok _ _ _ _ _ Hd), set_col_offset_eq.
    reflexivity.
Qed.

(** X18.  Every line drawn by [print_text_effect], in each of the six
    effects and at the cursor row or at an offset from it, returns, changes
    nothing but the output, and ends by setting the column to the offset
    it was given, negative offsets taken as 0. *)
Theorem print_text_effect_ends_with_column text effect o rp st :
  exists out,
    print_text_effect text effect o rp st =
    (Ok tt, with_stdout (out ++ [csi (if o <? 0 then 0 else o) "G"])%list st).
Proof.
  unfold print_text_effect, print_effect.
  destruct effect;
    [unfold print_unfocused|unfold print_focused|unfold print_selected
    |unfold print_selected_focused|unfold print_banned
    |unfold print_banned_focused];
    apply render_at_row_ends_with_column; frame.
Qed.

(** ** flow.py: the two menus *)

Lemma session_state_run_from T tty_setraw tty_setcbreak self :
  preserves (fun q : process T => session_state self q.1)
            (run T tty_setraw tty_setcbreak self).
Proof.
  unfold run. apply preserves_bind; [|intros _].
  - apply preserves_lift_writer. frame.
  - apply session_state_selman_mainstream.
Qed.

Lemma keeps_print_line s : keeps logic (flow.print_line s).
Proof. unfold flow.print_line. frame. Qed.
Lemma returns_print_line s : returns (flow.print_line s).
Proof. unfold flow.print_line. frame. Qed.

(** X19.  When no option is labelled ["Install Dotfile"], [mainflow] never
    returns: once the first menu is left without an exception, reading
    [sel.sel_board["Install Dotfile"]] raises [KeyError], and no second
    menu is shown. *)
Theorem mainflow_missing_label (T : Type) (tty_setraw tty_setcbreak : T -> T)
    (install_options_list : list string)
    (install_options_mutex : option (gset (gset Z)))
    (install_options_order : set_iteration) (p : process T) :
  "Install Dotfile" ∉ install_options_list ->
  let sel :=
    Config install_options_list 5 true install_options_mutex
           (Some ["press n to proceed..."]) true install_options_order in
  let first_menu :=
    lift T (flow.print_line "    Options:") ;;
    flow.construct T sel ;;
    run T tty_setraw tty_setcbreak sel in
  flow.mainflow T tty_setraw tty_setcbreak install_options_list
    install_options_mutex install_options_order p =
  match first_menu p with
  | (Ok _, q) => (Raise KeyError, q)
  | (Raise e, q) => (Raise e, q)
  | (Diverge, q) => (Diverge, q)
  end.
Proof.
  intros Hnot sel first_menu. unfold flow.mainflow. cbv zeta.
  fold sel. unfold first_menu.
  destruct (lift_emits (T:=T) (flow.print_line "    Options:") p
              (keeps_print_line _) (returns_print_line _))
    as ([] & out & Hp).
  rewrite !(bind_ok _ _ _ _ _ Hp). cbv beta.
  unfold flow.construct. rewrite !bind_modify. cbv beta. cbn [fst snd].
  set (q0 := (with_stdout (stdout (with_stdout out p.1))
                (init sel (stdin (with_stdout out p.1))), p.2)).
  assert (Hq0 : session_state sel q0.1)
    by (apply session_write, session_init).
  pose proof (session_state_run_from T tty_setraw tty_setcbreak sel q0 Hq0)
    as Hq1.
  destruct (run T tty_setraw tty_setcbreak sel q0) as [[v|e|] q1] eqn:Hrun;
    cbn [snd] in Hq1.
  - rewrite (bind_ok _ _ _ _ _ Hrun). cbv beta.
    unfold lift at 1, get at 1. cbn [fst snd]. unfold bind at 1.
    cbv beta iota.
    destruct (session_boards_within sel q1.1 Hq1 "Install Dotfile")
      as [Hs _].
    destruct (sel_board q1.1 !! "Install Dotfile") as [b|] eqn:Hb.
    + destruct (Hnot (Hs (ex_intro _ b eq_refl))).
    + unfold lift at 1, dict_get. rewrite Hb. cbn [fst snd].
      destruct q1; reflexivity.
  - rewrite (bind_raise _ _ _ _ _ Hrun). reflexivity.
  - rewrite (bind_diverge _ _ _ _ Hrun). reflexivity.
Qed.

Lemma mainflow_missing_label_witness :
  (flow.mainflow Z raw_of cbreak_of ["A"; "B"] None ascending
     (init abc ["n"%byte], console 0)).1 = Raise KeyError.
Proof.
  rewrite (mainflow_missing_label Z raw_of cbreak_of ["A"; "B"] None
             ascending).
  - vm_compute. reflexivity.
  - intros [[=]|[[=]|[]%elem_of_nil]%elem_of_cons]%elem_of_cons.
Defined.

(** With the label among the options: selecting it and pressing [n] shows
    the second menu, which [q] ends; leaving the first menu without
    selecting it does not. *)
Example mainflow_second_menu :
  let options := ["Install Dotfile"; "Install Packages"] in
  let flow_on keys :=
    flow.mainflow Z raw_of cbreak_of options None ascending
      (init abc keys, console 0) in
  (flow_on [x0d; "n"%byte; "q"%byte]).1 = Ok tt /\
  stdin (flow_on [x0d; "n"%byte; "q"%byte]).2.1 = [] /\
  (flow_on ["n"%byte; "q"%byte]).1 = Ok tt /\
  stdin (flow_on ["n"%byte; "q"%byte]).2.1 = ["q"%byte].
Proof. repeat split; vm_compute; reflexivity. Qed.

(** ** Drawing a row, banning and unbanning *)

(** X20.  With the focus on an item, drawing a row never fails and changes
    nothing but the output, whatever the target; a target index outside
    [[0, N)] is no error: the row of the focus is drawn instead. *)
Theorem render_text_effect_draws self effect target st l :
  py_index (selection self) (current_index st) = Some l ->
  (exists out,
     render_text_effect self effect target st = (Ok tt, with_stdout out st)) /\
  (forall t, target = Some t -> is_index_valid self t = false ->
     render_text_effect self effect target st =
     render_text_effect self effect None st).
Proof.
  intros Hcur. split.
  - apply (render_text_effect_ok self effect target st l Hcur).
  - intros t -> Hinv. unfold render_text_effect. rewrite Hinv. reflexivity.
Qed.

Lemma render_text_effect_draws_witness :
  (exists out,
     render_text_effect abc BANNED (Some 7) (init abc []) =
     (Ok tt, with_stdout out (init abc []))) /\
  (forall t, Some 7 = Some t -> is_index_valid abc t = false ->
     render_text_effect abc BANNED (Some 7) (init abc []) =
     render_text_effect abc BANNED None (init abc [])).
Proof.
  apply (render_text_effect_draws abc BANNED (Some 7) (init abc []) "A").
  reflexivity.
Defined.

(** X21.  Banning an item and then unbanning it does not give back its
    selected flag: with the focus on an item, the two calls return and
    leave the item unselected and unbanned, the flags under every other
    label being as before. *)
Theorem ban_then_unban self i r r' st l li :
  py_index (selection self) (current_index st) = Some l ->
  py_index (selection self) i = Some li ->
  let st' := (ban_selection_by_index self i r ;;
              unban_selection_by_index self i r') st in
  st'.1 = Ok tt /\
  sel_board st'.2 !! li = Some false /\
  banned_board st'.2 !! li = Some false /\
  (forall k : string, k <> li ->
     sel_board st'.2 !! k = sel_board st !! k /\
     banned_board st'.2 !! k = banned_board st !! k).
Proof.
  intros Hcur Hi. cbv zeta.
  destruct (ban_selection_by_index_ok self st i r l li Hcur Hi) as [out Hb].
  rewrite (bind_ok _ _ _ _ _ Hb).
  match goal with |- context [unban_selection_by_index self i r' ?s] =>
    destruct (unban_selection_by_index_ok self s i r' l li Hcur Hi)
      as [out' ->] end.
  cbn [fst snd sel_board banned_board].
  split; [reflexivity|]. split; [apply lookup_insert_eq|].
  split; [apply lookup_insert_eq|].
  intros k Hk. rewrite !lookup_insert_ne by congruence. auto.
Qed.

Lemma ban_then_unban_witness :
  let st := (select_option pair (init pair [])).2 in
  let st' := (ban_selection_by_index pair 0 true ;;
              unban_selection_by_index pair 0 true) st in
  selected pair st 0 /\
  st'.1 = Ok tt /\
  sel_board st'.2 !! "A" = Some false /\
  banned_board st'.2 !! "A" = Some false.
Proof.
  intros st st'. split; [vm_compute; reflexivity|].
  destruct (ban_then_unban pair 0 true true st "A" "A")
    as (Hr & Hs & Hb & _); [vm_compute; reflexivity..|].
  auto.
Defined.
